(** * rl-dashboard: the training dashboard's view state (App.js)

    A shallow embedding of the React component [App]: the parsing of the
    [/results] payloads, the three fetch operations, the effects that keep
    selection, cache and timers in step, and the derivation of the chart
    series and of the table's elapsed-time cell. *)

From Stdlib Require Import ZArith Ascii String.
From Stdlib Require Floats.
Import (notations) PrimFloat.
From stdpp Require Import gmap strings list fin_maps pretty.

(** ** JavaScript numbers produced by [parseFloat]

    The exact decimal value of the literal that was read: the rounding of
    that value to the nearest double is not part of the model.  [NaN] is
    what [parseFloat] answers when no prefix of the text is a number. *)

Inductive number : Type :=
  | NaN
  | Infinity (negative : bool)
  | Finite (negative : bool) (mantissa : N) (exponent : Z).

Global Instance number_eq_dec : EqDecision number.
Proof. solve_decision. Defined.

Definition isNaN (n : number) : bool :=
  match n with NaN => true | _ => false end.

Module ParseFloat.

(** White space and line terminators that [parseFloat] trims at the
    start (the ones that fit in a byte). *)
Definition is_white (c : ascii) : bool :=
  let n := nat_of_ascii c in
  (n =? 9)%nat || (n =? 10)%nat || (n =? 11)%nat || (n =? 12)%nat
  || (n =? 13)%nat || (n =? 32)%nat.

Definition digit_of (c : ascii) : option N :=
  let n := N_of_ascii c in
  if ((48 <=? n) && (n <=? 57))%N then Some (n - 48)%N else None.

Fixpoint skip_white (l : list ascii) : list ascii :=
  match l with
  | c :: r => if is_white c then skip_white r else l
  | [] => []
  end.

(** The longest run of decimal digits at the head, and what follows. *)
Fixpoint span_digits (l : list ascii) : list N * list ascii :=
  match l with
  | c :: r =>
      match digit_of c with
      | Some d => let '(ds, rest) := span_digits r in (d :: ds, rest)
      | None => ([], l)
      end
  | [] => ([], [])
  end.

Definition digits_value (ds : list N) : N :=
  fold_left (fun acc d => 10 * acc + d)%N ds 0%N.

Definition split_sign (l : list ascii) : bool * list ascii :=
  match l with
  | "+"%char :: r => (false, r)
  | "-"%char :: r => (true, r)
  | _ => (false, l)
  end.

Fixpoint starts_with (p l : list ascii) : bool :=
  match p, l with
  | [], _ => true
  | a :: p', b :: l' => if Ascii.eqb a b then starts_with p' l' else false
  | _ :: _, [] => false
  end.

(** ExponentPart: [e] or [E], an optional sign, at least one digit.  A
    dangling [e] or [e+] is not part of the longest valid prefix. *)
Definition exponent_part (l : list ascii) : Z :=
  match l with
  | c :: r =>
      if Ascii.eqb c "e" || Ascii.eqb c "E" then
        let '(neg, r') := split_sign r in
        match fst (span_digits r') with
        | [] => 0%Z
        | ds => if neg then (- Z.of_N (digits_value ds))%Z
                else Z.of_N (digits_value ds)
        end
      else 0%Z
  | [] => 0%Z
  end.

Definition parse (l : list ascii) : number :=
  let '(neg, l1) := split_sign (skip_white l) in
  if starts_with (list_ascii_of_string "Infinity") l1 then Infinity neg
  else
    let '(ip, r1) := span_digits l1 in
    let '(fp, r2) :=
      match r1 with
      | "."%char :: r => span_digits r
      | _ => ([], r1)
      end in
    match ip, fp with
    | [], [] => NaN
    | _, _ =>
        Finite neg (digits_value (ip ++ fp))
               (exponent_part r2 - Z.of_nat (length fp))
    end.

End ParseFloat.

Definition parseFloat (s : string) : number :=
  ParseFloat.parse (list_ascii_of_string s).

(** ** Wire data *)

(** Body of [/results] and [/results/{runId}].  [steps] and [returns] are
    optional arrays of text; every other own property ([best], [last],
    [elapsed], ...) is carried along untouched by the object spread. *)
Record ResultsJson : Type := {
  json_steps : option (list string);
  json_returns : option (list string);
  json_rest : list (string * string);
}.

(** What [setLiveData] and [setRunDataCache] store. *)
Record RunData : Type := {
  steps : list number;
  returns : list number;
  rest : list (string * string);
}.

(** [arr?.map(s => parseFloat(s)) || []]: an array is always truthy, so the
    fallback is taken exactly when the property is missing. *)
Definition parse_series (arr : option (list string)) : list number :=
  match arr with
  | Some l => map parseFloat l
  | None => []
  end.

(** [{...json, steps: ..., returns: ...}] *)
Definition parse_results (json : ResultsJson) : RunData :=
  {| steps := parse_series (json_steps json);
     returns := parse_series (json_returns json);
     rest := json_rest json |}.

(** The reading of the interface description, for comparison: entries that
    do not parse are removed from the sequence. *)
Definition spec_parse_series_dropping (arr : option (list string))
  : list number :=
  match arr with
  | Some l => filter (fun n => isNaN n = false) (map parseFloat l)
  | None => []
  end.

Definition example_json : ResultsJson :=
  {| json_steps := Some ["1"; "2"; "x"; "4"];
     json_returns := Some ["0.1"; "0.2"; "0.3"; "0.4"];
     json_rest := [] |}.

(** ** JavaScript numbers

    A number is a double: [PrimFloat.float] with its IEEE operations.
    [Math.floor] and [%] are exact on doubles and are computed here on
    the mantissa and exponent that [Prim2SF] gives. *)

(** [if (x)] on a number: [0], [-0] and [NaN] are falsy. *)
Definition truthy_number (x : PrimFloat.float) : bool :=
  negb (PrimFloat.is_nan x || PrimFloat.is_zero x).

(** What [Math.floor] returns: [NaN], an infinity, or a whole number (a
    zero of either sign prints as [0], so its sign is not kept). *)
Inductive integral : Type :=
  | INaN
  | IInfinity (negative : bool)
  | IInt (z : Z).

Definition Math_floor (x : PrimFloat.float) : integral :=
  match FloatOps.Prim2SF x with
  | SpecFloat.S754_nan => INaN
  | SpecFloat.S754_infinity s => IInfinity s
  | SpecFloat.S754_zero _ => IInt 0
  | SpecFloat.S754_finite s m e =>
      let v := if s then Zneg m else Zpos m in
      IInt (if (0 <=? e)%Z then v * 2 ^ e else Z.shiftr v (- e))%Z
  end.

(** [n % d]: the remainder has the sign of [n] and is always a double. *)
Definition Number_remainder (n d : PrimFloat.float) : PrimFloat.float :=
  match FloatOps.Prim2SF n, FloatOps.Prim2SF d with
  | SpecFloat.S754_nan, _ | _, SpecFloat.S754_nan => PrimFloat.nan
  | SpecFloat.S754_infinity _, _ => PrimFloat.nan
  | _, SpecFloat.S754_infinity _ => n
  | _, SpecFloat.S754_zero _ => PrimFloat.nan
  | SpecFloat.S754_zero _, _ => n
  | SpecFloat.S754_finite sn mn en, SpecFloat.S754_finite _ md ed =>
      let e := Z.min en ed in
      let N := (Zpos mn * 2 ^ (en - e))%Z in
      let D := (Zpos md * 2 ^ (ed - e))%Z in
      let R := (N mod D)%Z in
      if (R =? 0)%Z then (if sn then PrimFloat.neg_zero else PrimFloat.zero)
      else
        FloatOps.SF2Prim
          (SpecFloat.binary_normalize FloatOps.prec FloatOps.emax
             (if sn then - R else R)%Z e false)
  end.

(** The double nearest to a positive whole number (ties to even). *)
Definition round_to_double (y : Z) : Z :=
  let bits := (Z.log2 y + 1)%Z in
  if (bits <=? 53)%Z then y
  else
    let shift := (bits - 53)%Z in
    let q := Z.shiftr y shift in
    let r := (y - Z.shiftl q shift)%Z in
    let half := (2 ^ (shift - 1))%Z in
    let q' :=
      if (half <? r)%Z || ((r =? half)%Z && Z.odd q) then (q + 1)%Z else q in
    Z.shiftl q' shift.

Definition digits_of (z : Z) : nat := String.length (pretty z).

(** [Number::toString] picks the decimal with the fewest significant
    digits that still reads back as the same double.  With [k]
    significant digits out of [d], the two decimals around [z] are tried;
    when both read back as [z] the nearer one wins, the even one on a
    tie. *)
Definition candidate (z : Z) (d k : nat) : option Z :=
  let p := (10 ^ Z.of_nat (d - k))%Z in
  let y0 := ((z / p) * p)%Z in
  let y1 := (y0 + p)%Z in
  match (round_to_double y0 =? z)%Z, (round_to_double y1 =? z)%Z with
  | true, true =>
      if (z - y0 <? y1 - z)%Z then Some y0
      else if (y1 - z <? z - y0)%Z then Some y1
      else if Z.even (z / p) then Some y0 else Some y1
  | true, false => Some y0
  | false, true => Some y1
  | false, false => None
  end.

Fixpoint shortest_from (z : Z) (d : nat) (ks : list nat) : Z :=
  match ks with
  | [] => z
  | k :: ks' =>
      match candidate z d k with
      | Some y => y
      | None => shortest_from z d ks'
      end
  end.

Definition shortest_decimal (z : Z) : Z :=
  shortest_from z (digits_of z) (seq 1 (digits_of z)).

Fixpoint strip_zeros (fuel : nat) (y : Z) : Z :=
  match fuel with
  | O => y
  | S f => if (y mod 10 =? 0)%Z then strip_zeros f (y / 10)%Z else y
  end.

(** Up to 21 digits the decimal is written out, zeros included; beyond,
    the digits are followed by an exponent. *)
Definition toString_positive (z : Z) : string :=
  let y := shortest_decimal z in
  let n := digits_of y in
  if (n <=? 21)%nat then pretty y
  else
    match pretty (strip_zeros n y) with
    | String c EmptyString => String c EmptyString
    | String c digits => String c ("." +:+ digits)
    | EmptyString => EmptyString
    end +:+ "e+" +:+ pretty (Z.of_nat n - 1)%Z.

(** [num.toString()] on a value of [Math.floor]. *)
Definition toString (num : integral) : string :=
  match num with
  | INaN => "NaN"
  | IInfinity false => "Infinity"
  | IInfinity true => "-Infinity"
  | IInt Z0 => "0"
  | IInt (Zpos p) => toString_positive (Zpos p)
  | IInt (Zneg p) => "-" +:+ toString_positive (Zpos p)
  end.

(** One entry of [/runs]; [elapsed_min] is a number when present. *)
Record RunSummary : Type := {
  run : string;
  model : option string;
  best_reward : option number;
  last_avg_return : option number;
  elapsed_min : option PrimFloat.float;
}.

(** How a fetch ends: [fetch] rejects, or [res.json()] rejects, or a body
    of the documented shape is read.  [Json] stands for every response
    with a JSON body, whatever its HTTP status: the code never reads
    [res.ok] or [res.status]. *)
Inductive response (J : Type) : Type :=
  | FetchRejected (e : string)
  | JsonRejected (e : string)
  | Json (body : J).
Arguments FetchRejected {J} e.
Arguments JsonRejected {J} e.
Arguments Json {J} body.

(** Which effect asked for a run's data: the cache-population effect or the
    refresh interval.  Both call [fetchRunData]; the tag is bookkeeping. *)
Inductive origin : Type := OnDemand | Refresh.

Inductive request : Type :=
  | GetResults
  | GetRuns
  | GetRun (o : origin) (runId : string).

Global Instance origin_eq_dec : EqDecision origin.
Proof. solve_decision. Defined.
Global Instance request_eq_dec : EqDecision request.
Proof. solve_decision. Defined.

(** ** The component's state *)

(** The five [useState] cells. *)
Record App : Type := {
  liveData : RunData;
  runs : list RunSummary;
  activePlots : list string;
  runDataCache : gmap string RunData;
  showAllRuns : bool;
}.

(** The component together with what React and the browser hold for it.
    [plots_identity] stands for the identity of the [activePlots] array:
    every [setActivePlots] installs a fresh array, and the effects that
    depend on [[activePlots]] compare identities, not contents.
    [committed_length] and [committed_plots] are the dependency values of
    the last commit.  [refresh_timer] is the interval of the refresh effect
    with the selection its callback closed over.  The last three fields are
    counters kept for the statements only. *)
Record World : Type := {
  app : App;
  plots_identity : nat;
  committed_length : nat;
  committed_plots : nat;
  refresh_timer : option (list string);
  pending : list request;
  issued : list request;
  console : list string;
  auto_selections : nat;
  user_toggles : nat;
  user_emptied : nat;
}.

Definition with_app (f : App → App) (w : World) : World :=
  {| app := f (app w); plots_identity := plots_identity w;
     committed_length := committed_length w;
     committed_plots := committed_plots w;
     refresh_timer := refresh_timer w; pending := pending w;
     issued := issued w; console := console w;
     auto_selections := auto_selections w; user_toggles := user_toggles w;
     user_emptied := user_emptied w |}.

Definition with_plots_identity (n : nat) (w : World) : World :=
  {| app := app w; plots_identity := n;
     committed_length := committed_length w;
     committed_plots := committed_plots w;
     refresh_timer := refresh_timer w; pending := pending w;
     issued := issued w; console := console w;
     auto_selections := auto_selections w; user_toggles := user_toggles w;
     user_emptied := user_emptied w |}.

Definition with_committed (len plots : nat) (w : World) : World :=
  {| app := app w; plots_identity := plots_identity w;
     committed_length := len; committed_plots := plots;
     refresh_timer := refresh_timer w; pending := pending w;
     issued := issued w; console := console w;
     auto_selections := auto_selections w; user_toggles := user_toggles w;
     user_emptied := user_emptied w |}.

Definition with_refresh_timer (t : option (list string)) (w : World) : World :=
  {| app := app w; plots_identity := plots_identity w;
     committed_length := committed_length w;
     committed_plots := committed_plots w;
     refresh_timer := t; pending := pending w;
     issued := issued w; console := console w;
     auto_selections := auto_selections w; user_toggles := user_toggles w;
     user_emptied := user_emptied w |}.

Definition with_requests (p i : list request) (w : World) : World :=
  {| app := app w; plots_identity := plots_identity w;
     committed_length := committed_length w;
     committed_plots := committed_plots w;
     refresh_timer := refresh_timer w; pending := p;
     issued := i; console := console w;
     auto_selections := auto_selections w; user_toggles := user_toggles w;
     user_emptied := user_emptied w |}.

Definition with_console (c : list string) (w : World) : World :=
  {| app := app w; plots_identity := plots_identity w;
     committed_length := committed_length w;
     committed_plots := committed_plots w;
     refresh_timer := refresh_timer w; pending := pending w;
     issued := issued w; console := c;
     auto_selections := auto_selections w; user_toggles := user_toggles w;
     user_emptied := user_emptied w |}.

Definition with_counters (a t e : nat) (w : World) : World :=
  {| app := app w; plots_identity := plots_identity w;
     committed_length := committed_length w;
     committed_plots := committed_plots w;
     refresh_timer := refresh_timer w; pending := pending w;
     issued := issued w; console := console w;
     auto_selections := a; user_toggles := t; user_emptied := e |}.

(** ** Computations over the world that may throw *)

Definition M (A : Type) : Type := World → (string + A) * World.

Definition ret {A} (a : A) : M A := λ w, (inr a, w).

Definition bind {A B} (m : M A) (k : A → M B) : M B :=
  λ w, match m w with
       | (inr a, w') => k a w'
       | (inl e, w') => (inl e, w')
       end.

Definition throw {A} (e : string) : M A := λ w, (inl e, w).

(** [try { body } catch (e) { handler(e) }] *)
Definition try_catch {A} (body : M A) (handler : string → M A) : M A :=
  λ w, match body w with
       | (inr a, w') => (inr a, w')
       | (inl e, w') => handler e w'
       end.

Definition modify (f : World → World) : M unit := λ w, (inr tt, f w).

Definition exec (m : M unit) (w : World) : World := snd (m w).

Declare Scope js_scope.
Delimit Scope js_scope with js.
Notation "x <- m ;; k" := (bind m (λ x, k))
  (at level 100, m at next level, right associativity) : js_scope.
Notation "m ;;; k" := (bind m (λ _, k))
  (at level 100, right associativity) : js_scope.
Local Open Scope js_scope.

Definition when (b : bool) (m : M unit) : M unit := if b then m else ret tt.

(** [arr.forEach(f)] *)
Fixpoint forEach {A} (l : list A) (f : A → M unit) : M unit :=
  match l with
  | [] => ret tt
  | a :: r => (f a ;;; forEach r f)
  end.

(** *** State setters *)

Definition setLiveData (d : RunData) : M unit :=
  modify (with_app (λ a,
    {| liveData := d; runs := runs a; activePlots := activePlots a;
       runDataCache := runDataCache a; showAllRuns := showAllRuns a |})).

Definition setRuns (l : list RunSummary) : M unit :=
  modify (with_app (λ a,
    {| liveData := liveData a; runs := l; activePlots := activePlots a;
       runDataCache := runDataCache a; showAllRuns := showAllRuns a |})).

Definition setActivePlots (f : list string → list string) : M unit :=
  modify (λ w,
    with_plots_identity (S (plots_identity w))
      (with_app (λ a,
        {| liveData := liveData a; runs := runs a;
           activePlots := f (activePlots a);
           runDataCache := runDataCache a;
           showAllRuns := showAllRuns a |}) w)).

Definition setRunDataCache
    (f : gmap string RunData → gmap string RunData) : M unit :=
  modify (with_app (λ a,
    {| liveData := liveData a; runs := runs a; activePlots := activePlots a;
       runDataCache := f (runDataCache a); showAllRuns := showAllRuns a |})).

Definition setShowAllRuns (b : bool) : M unit :=
  modify (with_app (λ a,
    {| liveData := liveData a; runs := runs a; activePlots := activePlots a;
       runDataCache := runDataCache a; showAllRuns := b |})).

Definition console_error (msg e : string) : M unit :=
  modify (λ w, with_console (console w ++ [msg +:+ " " +:+ e]) w).

(** *** The network *)

(** Sending a request: it is in flight until its response arrives. *)
Definition send (r : request) : M unit :=
  modify (λ w, with_requests (pending w ++ [r]) (issued w ++ [r]) w).

(** [await fetch(url)] once the outcome is known. *)
Definition await_fetch {J} (r : response J) : M (response J) :=
  match r with
  | FetchRejected e => throw e
  | _ => ret r
  end.

(** [await res.json()] *)
Definition await_json {J} (res : response J) : M J :=
  match res with
  | Json body => ret body
  | JsonRejected e => throw e
  | FetchRejected e => throw e
  end.

(** ** The fetch operations

    Each async function is cut at its first [await]: [_call] is what runs
    when the function is called (the request leaves), [_resume] is what
    runs when the outcome of that request is known. *)

Definition fetchLiveResults_call : M unit := send GetResults.

Definition fetchLiveResults_resume (r : response ResultsJson) : M unit :=
  try_catch
    (res <- await_fetch r ;;
     json <- await_json res ;;
     setLiveData (parse_results json))
    (console_error "Failed to fetch live results:").

Definition fetchRuns_call : M unit := send GetRuns.

Definition fetchRuns_resume (r : response (list RunSummary)) : M unit :=
  try_catch
    (res <- await_fetch r ;;
     json <- await_json res ;;
     setRuns json)
    (console_error "Failed to fetch runs summary:").

Definition fetchRunData_call (o : origin) (runId : string) : M unit :=
  send (GetRun o runId).

Definition fetchRunData_resume (runId : string) (r : response ResultsJson)
  : M unit :=
  try_catch
    (res <- await_fetch r ;;
     json <- await_json res ;;
     setRunDataCache (λ prev, <[runId := parse_results json]> prev))
    (console_error ("Failed to fetch data for run " +:+ runId +:+ ":")).

(** ** Property lookup on the cache object

    [runDataCache] starts as [{}] and only gains own properties, so a
    lookup that finds no own property falls through to [Object.prototype],
    whose members are all truthy and none of which has a [steps]. *)

Definition Object_prototype : list string :=
  ["constructor"; "__defineGetter__"; "__defineSetter__"; "hasOwnProperty";
   "__lookupGetter__"; "__lookupSetter__"; "isPrototypeOf";
   "propertyIsEnumerable"; "toString"; "valueOf"; "__proto__";
   "toLocaleString"].

Inductive property : Type :=
  | Own (d : RunData)
  | Inherited
  | Undefined.

Definition get (cache : gmap string RunData) (key : string) : property :=
  match cache !! key with
  | Some d => Own d
  | None => if bool_decide (key ∈ Object_prototype) then Inherited
            else Undefined
  end.

Definition truthy (p : property) : bool :=
  match p with
  | Undefined => false
  | _ => true
  end.

(** ** Effects *)

(** [if (runs.length > 0 && activePlots.length === 0)
       setActivePlots([runs[0].run])]; the [modify] after the setter only
    counts the firing. *)
Definition effect_default_selection (rendered : App) : M unit :=
  when (bool_decide (0 < length (runs rendered))
        && bool_decide (length (activePlots rendered) = 0))
    match runs rendered with
    | r0 :: _ =>
        (setActivePlots (λ _, [run r0]) ;;;
         modify (λ w, with_counters (S (auto_selections w)) (user_toggles w)
                        (user_emptied w) w))
    | [] => throw "TypeError: runs[0] is undefined"
    end.

(** [activePlots.forEach(runId => { if (!runDataCache[runId])
       fetchRunData(runId) })] *)
Definition effect_cache_population (rendered : App) : M unit :=
  forEach (activePlots rendered) (λ runId,
    when (negb (truthy (get (runDataCache rendered) runId)))
      (fetchRunData_call OnDemand runId)).

(** The previous interval is cleared; a new one is set when something is
    selected, and its callback closes over this render's [activePlots]. *)
Definition effect_refresh_timer (rendered : App) : M unit :=
  modify (with_refresh_timer
    (if bool_decide (0 < length (activePlots rendered))
     then Some (activePlots rendered) else None)).

(** The callback of the refresh interval. *)
Definition refresh_callback (captured : list string) : M unit :=
  forEach captured (λ runId, fetchRunData_call Refresh runId).

(** The callback of the interval set on mount. *)
Definition live_callback : M unit :=
  (fetchLiveResults_call ;;; fetchRuns_call).

(** One commit: the effects whose dependencies differ from those of the
    previous commit run, in the order of their declaration, all reading the
    state that was rendered. *)
Definition commit : M unit := λ w,
  let rendered := app w in
  let identity := plots_identity w in
  let length_changed :=
    negb (bool_decide (length (runs rendered) = committed_length w)) in
  let plots_changed := negb (bool_decide (identity = committed_plots w)) in
  (when length_changed (effect_default_selection rendered) ;;;
   when plots_changed (effect_cache_population rendered) ;;;
   when plots_changed (effect_refresh_timer rendered) ;;;
   modify (with_committed (length (runs rendered)) identity)) w.

(** A state update made by an effect schedules one more render.  Only the
    default-selection effect updates state, and it cannot run in the
    commit that follows its own update, so a second commit settles. *)
Definition dirty (w : World) : bool :=
  negb (bool_decide (plots_identity w = committed_plots w)).

Definition render : M unit :=
  (commit ;;; λ w, when (dirty w) commit w).

(** The first render: every effect runs. *)
Definition initial_app : App :=
  {| liveData := {| steps := []; returns := [];
                    rest := [("best", "null"); ("last", "null");
                             ("elapsed", "[]")] |};
     runs := [];
     activePlots := [];
     runDataCache := ∅;
     showAllRuns := false |}.

Definition initial_world : World :=
  {| app := initial_app; plots_identity := 0; committed_length := 0;
     committed_plots := 0; refresh_timer := None; pending := [];
     issued := []; console := []; auto_selections := 0;
     user_toggles := 0; user_emptied := 0 |}.

Definition mount : M unit :=
  (live_callback ;;;
   effect_default_selection initial_app ;;;
   effect_cache_population initial_app ;;;
   effect_refresh_timer initial_app ;;;
   modify (with_committed 0 0)).

Definition mounted : World := exec mount initial_world.

(** ** The view *)

(** [showAllRuns ? runs : runs.slice(0, 1)] *)
Definition visible_rows (a : App) : list RunSummary :=
  if showAllRuns a then runs a else take 1 (runs a).

(** The updater of the checkbox's [onChange]. *)
Definition toggle (runId : string) (prev : list string) : list string :=
  if bool_decide (runId ∈ prev)
  then filter (λ id, id ≠ runId) prev
  else prev ++ [runId].

(** The [onChange] of the checkbox in the row of [r]; the [modify] after
    the setter only counts the toggle, and whether it emptied the
    selection. *)
Definition checkbox_onChange (r : RunSummary) : M unit :=
  (setActivePlots (toggle (run r)) ;;;
   modify (λ w,
     with_counters (auto_selections w) (S (user_toggles w))
       (if bool_decide (activePlots (app w) = [])
        then S (user_emptied w) else user_emptied w) w)).

Definition showAll_onClick : M unit := λ w,
  setShowAllRuns (negb (showAllRuns (app w))) w.

(** [str.padStart(target, fill)] with a one-character [fill]. *)
Fixpoint repeat_char (n : nat) (c : ascii) : string :=
  match n with
  | O => EmptyString
  | S k => String c (repeat_char k c)
  end.

Definition padStart (target : nat) (fill : ascii) (s : string) : string :=
  repeat_char (target - String.length s) fill +:+ s.

(** [num => num.toString().padStart(2, '0')] *)
Definition pad (num : integral) : string := padStart 2 "0" (toString num).

(** The "Time (HH:MM)" cell. *)
Definition elapsed_cell (r : RunSummary) : string :=
  match elapsed_min r with
  | Some totalMinutes =>
      if truthy_number totalMinutes then
        let hours := Math_floor (PrimFloat.div totalMinutes 60%float) in
        let minutes := Math_floor (Number_remainder totalMinutes 60%float) in
        pad hours +:+ ":" +:+ pad minutes
      else "-"
  | None => "-"
  end.

(** One plotted series. *)
Record Series : Type := {
  x : list number;
  y : list number;
  type : string;
  mode : string;
  line_color : string;
  name : string;
}.

Definition colors : list string :=
  ["#8b76e9"; "#76a5e9"; "#e97676"; "#76e9b3"; "#e9d176"; "#e976d1"].

(** The callback of [activePlots.map]: [None] stands for [null]. *)
Definition plot_series (a : App) (idx : nat) (runId : string)
  : option Series :=
  match List.find (λ r, String.eqb (run r) runId) (runs a) with
  | None => None
  | Some r =>
      match get (runDataCache a) runId with
      | Own runData =>
          if bool_decide (length (steps runData) = 0) then None
          else
            Some {| x := steps runData;
                    y := returns runData;
                    type := "scatter";
                    mode := "lines";
                    line_color :=
                      default "" (colors !! (idx mod length colors));
                    name := run r |}
      | _ => None
      end
  end.

(** [activePlots.map(...).filter(Boolean)] *)
Definition plot_data (a : App) : list Series :=
  omap id (imap (plot_series a) (activePlots a)).

(** ** Events *)

Inductive event : Type :=
  | LiveTick
  | RefreshTick
  | ResultsArrive (r : response ResultsJson)
  | RunsArrive (r : response (list RunSummary))
  | RunArrive (o : origin) (runId : string) (r : response ResultsJson)
  | ClickCheckbox (row : nat)
  | ClickShowAll.

Fixpoint remove_first (r : request) (l : list request) : list request :=
  match l with
  | [] => []
  | q :: l' => if bool_decide (q = r) then l' else q :: remove_first r l'
  end.

(** A response can only arrive for a request that is in flight. *)
Definition deliver (r : request) (k : M unit) (w : World) : option World :=
  if bool_decide (r ∈ pending w) then
    Some (exec
      (modify (λ w, with_requests (remove_first r (pending w)) (issued w) w)
       ;;; k ;;; render) w)
  else None.

(** [step e w] is [None] when [e] cannot happen in [w]: no such request in
    flight, no such interval, no such row or link on the page. *)
Definition step (e : event) (w : World) : option World :=
  match e with
  | LiveTick => Some (exec (live_callback ;;; render) w)
  | RefreshTick =>
      match refresh_timer w with
      | Some captured => Some (exec (refresh_callback captured ;;; render) w)
      | None => None
      end
  | ResultsArrive r => deliver GetResults (fetchLiveResults_resume r) w
  | RunsArrive r => deliver GetRuns (fetchRuns_resume r) w
  | RunArrive o runId r =>
      deliver (GetRun o runId) (fetchRunData_resume runId r) w
  | ClickCheckbox row =>
      match visible_rows (app w) !! row with
      | Some r => Some (exec (checkbox_onChange r ;;; render) w)
      | None => None
      end
  | ClickShowAll =>
      if bool_decide (1 < length (runs (app w)))
      then Some (exec (showAll_onClick ;;; render) w)
      else None
  end.

Fixpoint run_events (es : list event) (w : World) : option World :=
  match es with
  | [] => Some w
  | e :: es' =>
      match step e w with
      | Some w' => run_events es' w'
      | None => None
      end
  end.

Inductive reachable : World → Prop :=
  | reachable_mounted : reachable mounted
  | reachable_step e w w' :
      reachable w → step e w = Some w' → reachable w'.

(** Number of on-demand requests for [runId] in a log. *)
Definition on_demand_count (runId : string) (log : list request) : nat :=
  length (filter (λ r, r = GetRun OnDemand runId) log).

(** Requests that one run of the cache-population effect sends. *)
Definition population_requests (a : App) : list request :=
  omap (λ runId,
          if negb (truthy (get (runDataCache a) runId))
          then Some (GetRun OnDemand runId) else None)
       (activePlots a).

(** Requests that one tick of the refresh interval sends. *)
Definition refresh_requests (captured : list string) : list request :=
  GetRun Refresh <$> captured.

(** The world after [reqs] have left, in this order. *)
Definition sent (reqs : list request) (w : World) : World :=
  with_requests (pending w ++ reqs) (issued w ++ reqs) w.

(** The interval that the refresh effect leaves behind. *)
Definition timer_of (a : App) : option (list string) :=
  if bool_decide (0 < length (activePlots a))
  then Some (activePlots a) else None.

(** ** Vocabulary of the statements *)

(** Nothing is left to re-render: the dependencies of the last commit are
    those of the current state. *)
Definition quiescent (w : World) : Prop :=
  plots_identity w = committed_plots w
  ∧ length (runs (app w)) = committed_length w.

(** The world after the default-selection effect has selected [r0]. *)
Definition fired (r0 : RunSummary) (w : World) : World :=
  exec (setActivePlots (λ _, [run r0]) ;;;
        modify (λ w, with_counters (S (auto_selections w)) (user_toggles w)
                       (user_emptied w) w)) w.

(** The world after a commit in which only the selection changed. *)
Definition after_plots_commit (w : World) : World :=
  with_committed (length (runs (app w))) (plots_identity w)
    (with_refresh_timer (timer_of (app w))
       (sent (population_requests (app w)) w)).

(** The world once the response to [r] has been taken off the wire. *)
Definition received (r : request) (w : World) : World :=
  with_requests (remove_first r (pending w)) (issued w) w.

(** What each event makes of a world in which nothing is left to
    re-render, case by case. *)
Inductive outcome_of (w : World) : event → World → Prop :=
  | out_live :
      outcome_of w LiveTick (sent [GetResults; GetRuns] w)
  | out_refresh captured :
      refresh_timer w = Some captured →
      outcome_of w RefreshTick (sent (refresh_requests captured) w)
  | out_results r :
      GetResults ∈ pending w →
      outcome_of w (ResultsArrive r)
        (exec (fetchLiveResults_resume r) (received GetResults w))
  | out_run o runId r :
      GetRun o runId ∈ pending w →
      outcome_of w (RunArrive o runId r)
        (exec (fetchRunData_resume runId r) (received (GetRun o runId) w))
  | out_runs_same r :
      GetRuns ∈ pending w →
      (∀ l, r = Json l → length l = length (runs (app w))) →
      outcome_of w (RunsArrive r)
        (exec (fetchRuns_resume r) (received GetRuns w))
  | out_runs_idle l :
      GetRuns ∈ pending w →
      length l ≠ length (runs (app w)) →
      l = [] ∨ activePlots (app w) ≠ [] →
      outcome_of w (RunsArrive (Json l))
        (with_committed (length l) (plots_identity w)
           (exec (setRuns l) (received GetRuns w)))
  | out_runs_fire r0 l :
      GetRuns ∈ pending w →
      length (r0 :: l) ≠ length (runs (app w)) →
      activePlots (app w) = [] →
      outcome_of w (RunsArrive (Json (r0 :: l)))
        (after_plots_commit
           (with_committed (length (r0 :: l)) (plots_identity w)
              (fired r0 (exec (setRuns (r0 :: l)) (received GetRuns w)))))
  | out_checkbox row r :
      visible_rows (app w) !! row = Some r →
      outcome_of w (ClickCheckbox row)
        (after_plots_commit (exec (checkbox_onChange r) w))
  | out_showAll :
      1 < length (runs (app w)) →
      outcome_of w ClickShowAll (exec showAll_onClick w).

(** What holds of every world an execution can reach. *)
Record Inv (w : World) : Prop := {
  inv_quiescent : quiescent w;
  inv_nodup : NoDup (activePlots (app w));
  inv_empty :
    activePlots (app w) = [] → (auto_selections w ≤ user_emptied w)%nat;
  inv_bound : (auto_selections w ≤ user_emptied w + 1)%nat;
  inv_fresh :
    auto_selections w = 0 → user_toggles w = 0 →
    runs (app w) = [] ∧ activePlots (app w) = [];
}.

(** A run summary with nothing but its identifier. *)
Definition run_summary (id : string) : RunSummary :=
  {| run := id; model := None; best_reward := None;
     last_avg_return := None; elapsed_min := None |}.

(** The user empties the default selection, then a longer run list comes
    in with the next poll. *)
Definition reselect_trace : list event :=
  [RunsArrive (Json [run_summary "r1"]);
   ClickCheckbox 0;
   LiveTick;
   RunsArrive (Json [run_summary "r2"; run_summary "r1"])].

(** The user selects a second run while the data of the first is still in
    flight. *)
Definition refetch_trace : list event :=
  [RunsArrive (Json [run_summary "r2"; run_summary "r1"]);
   ClickShowAll;
   ClickCheckbox 1].

(** The double with the value of a whole number (exact up to [2 ^ 53]). *)
Definition Number_of_Z (z : Z) : PrimFloat.float :=
  FloatOps.SF2Prim
    (SpecFloat.binary_normalize FloatOps.prec FloatOps.emax z 0 false).

(** A row whose elapsed time is [x] minutes. *)
Definition row_with_elapsed (x : PrimFloat.float) : RunSummary :=
  {| run := "run"; model := None; best_reward := None;
     last_avg_return := None; elapsed_min := Some x |}.

(** The two decimal digits of a number from 0 to 99. *)
Definition two_digits (k : Z) : string :=
  String (ascii_of_N (48 + Z.to_N (k / 10)))
    (String (ascii_of_N (48 + Z.to_N (k mod 10))) EmptyString).

(** The body FastAPI sends with an HTTP error status. *)
Definition error_body : ResultsJson :=
  {| json_steps := None;
     json_returns := None;
     json_rest := [("detail", "Not Found")] |}.

(** The data of the selected run is on the chart and the refresh interval
    has asked for it again. *)
Definition refresh_in_flight_trace : list event :=
  [RunsArrive (Json [run_summary "r1"]);
   RunArrive OnDemand "r1" (Json example_json);
   RefreshTick].

(** Two runs with cached data, of which only ["r2"] is selected. *)
Definition one_of_two_selected_trace : list event :=
  [RunsArrive (Json [run_summary "r2"; run_summary "r1"]);
   RunArrive OnDemand "r2" (Json example_json);
   ClickShowAll;
   ClickCheckbox 1;
   RunArrive OnDemand "r1" (Json example_json);
   ClickCheckbox 1].

(** A state in which every run of [ids] is listed, selected and cached
    with the example series. *)
Definition chart_app (ids : list string) : App :=
  {| liveData := parse_results example_json;
     runs := run_summary <$> ids;
     activePlots := ids;
     runDataCache :=
       list_to_map ((λ id, (id, parse_results example_json)) <$> ids);
     showAllRuns := true |}.

(** ** More of the view *)

(** [checked={activePlots.includes(run.run)}] *)
Definition checkbox_checked (a : App) (r : RunSummary) : bool :=
  bool_decide (run r ∈ activePlots a).

(** The link under the table: present when [runs.length > 1], with the
    label [`Hide Previous Runs (${runs.length - 1})`] or
    [`Show Previous Runs (${runs.length - 1})`]. *)
Definition show_link (a : App) : option string :=
  if bool_decide (1 < length (runs a)) then
    Some (if showAllRuns a
          then "Hide Previous Runs ("
               +:+ toString (IInt (Z.of_nat (length (runs a)) - 1)) +:+ ")"
          else "Show Previous Runs ("
               +:+ toString (IInt (Z.of_nat (length (runs a)) - 1)) +:+ ")")
  else None.

(** The color that position [idx] of the selection gets. *)
Definition color_at (idx : nat) : string :=
  default "" (colors !! (idx mod length colors)).

(** The world an execution ends in ([mounted] when the execution is not
    possible). *)
Definition world_after (es : list event) : World :=
  default mounted (run_events es mounted).

(** Whether the chart has a series for [runId] when it is selected: the
    run is listed, it has a cache entry of its own, and the cached [steps]
    is not empty. *)
Definition plottable (a : App) (runId : string) : bool :=
  existsb (λ r, String.eqb (run r) runId) (runs a)
  && match runDataCache a !! runId with
     | Some d => negb (bool_decide (length (steps d) = 0))
     | None => false
     end.

(** * Properties *)

(** ** The loops and the render, in closed form *)

Lemma sent_nil w : sent [] w = w.
Proof.
  destruct w. unfold sent, with_requests. simpl. by rewrite !app_nil_r.
Qed.

Lemma sent_sent r1 r2 w : sent r2 (sent r1 w) = sent (r1 ++ r2) w.
Proof. unfold sent, with_requests. simpl. by rewrite !app_assoc. Qed.

Lemma forEach_send {A} (c : A → bool) (g : A → request) (l : list A) w :
  forEach l (λ a, when (c a) (send (g a))) w
  = (inr tt, sent (omap (λ a, if c a then Some (g a) else None) l) w).
Proof.
  revert w. induction l as [|a l IH]; intros w; simpl.
  - by rewrite sent_nil.
  - unfold bind. destruct (c a); simpl.
    + rewrite IH. f_equal. apply (sent_sent [g a]).
    + apply IH.
Qed.

Lemma effect_cache_population_eq a w :
  effect_cache_population a w = (inr tt, sent (population_requests a) w).
Proof. apply forEach_send. Qed.

Lemma refresh_callback_eq captured w :
  refresh_callback captured w = (inr tt, sent (refresh_requests captured) w).
Proof.
  unfold refresh_callback, refresh_requests.
  etrans; [apply (forEach_send (λ _, true) (GetRun Refresh))|].
  assert (Hmap : omap (λ a, Some (GetRun Refresh a)) captured
                 = GetRun Refresh <$> captured).
  { induction captured as [|id ids IH]; [done|].
    change (GetRun Refresh id :: omap (λ a, Some (GetRun Refresh a)) ids
            = GetRun Refresh id :: (GetRun Refresh <$> ids)).
    by rewrite IH. }
  simpl. by rewrite Hmap.
Qed.

Lemma live_callback_eq w :
  live_callback w = (inr tt, sent [GetResults; GetRuns] w).
Proof.
  unfold live_callback, bind, fetchLiveResults_call, fetchRuns_call, send,
    modify.
  f_equal. apply (sent_sent [GetResults] [GetRuns]).
Qed.

Lemma with_committed_id w :
  with_committed (committed_length w) (committed_plots w) w = w.
Proof. by destruct w. Qed.

Lemma commit_unchanged w : quiescent w → commit w = (inr tt, w).
Proof.
  intros [Hp Hl]. unfold commit, bind.
  rewrite !bool_decide_eq_true_2 by done. simpl.
  unfold modify. rewrite Hp, Hl. by rewrite with_committed_id.
Qed.

Lemma commit_plots w :
  length (runs (app w)) = committed_length w →
  plots_identity w ≠ committed_plots w →
  commit w = (inr tt, after_plots_commit w).
Proof.
  intros Hl Hp. unfold commit, bind.
  rewrite (bool_decide_eq_true_2 _ Hl), (bool_decide_eq_false_2 _ Hp).
  simpl. by rewrite effect_cache_population_eq.
Qed.

Lemma commit_length_idle w :
  length (runs (app w)) ≠ committed_length w →
  plots_identity w = committed_plots w →
  runs (app w) = [] ∨ activePlots (app w) ≠ [] →
  commit w
  = (inr tt, with_committed (length (runs (app w))) (plots_identity w) w).
Proof.
  intros Hl Hp Hidle. unfold commit, bind.
  rewrite (bool_decide_eq_false_2 _ Hl), (bool_decide_eq_true_2 _ Hp).
  simpl. unfold effect_default_selection.
  destruct Hidle as [Hr | Ha].
  - rewrite Hr. simpl. done.
  - destruct (activePlots (app w)) as [|id ids] eqn:E; [done|].
    simpl. rewrite andb_false_r. done.
Qed.

Lemma commit_length_fire w r0 l :
  runs (app w) = r0 :: l →
  activePlots (app w) = [] →
  length (runs (app w)) ≠ committed_length w →
  plots_identity w = committed_plots w →
  commit w
  = (inr tt,
     with_committed (length (runs (app w))) (plots_identity w) (fired r0 w)).
Proof.
  intros Hr Ha Hl Hp. unfold commit, bind.
  rewrite (bool_decide_eq_false_2 _ Hl), (bool_decide_eq_true_2 _ Hp).
  simpl. unfold effect_default_selection. rewrite Hr, Ha. simpl. done.
Qed.

Lemma render_unchanged w : quiescent w → render w = (inr tt, w).
Proof.
  intros Hq. unfold render, bind. rewrite (commit_unchanged w Hq).
  unfold dirty. destruct Hq as [Hp _].
  by rewrite (bool_decide_eq_true_2 _ Hp).
Qed.

Lemma render_plots w :
  length (runs (app w)) = committed_length w →
  plots_identity w ≠ committed_plots w →
  render w = (inr tt, after_plots_commit w).
Proof.
  intros Hl Hp. unfold render, bind. rewrite (commit_plots w Hl Hp).
  unfold dirty. simpl. by rewrite bool_decide_eq_true_2.
Qed.

Lemma render_length_idle w :
  length (runs (app w)) ≠ committed_length w →
  plots_identity w = committed_plots w →
  runs (app w) = [] ∨ activePlots (app w) ≠ [] →
  render w
  = (inr tt, with_committed (length (runs (app w))) (plots_identity w) w).
Proof.
  intros Hl Hp Hidle. unfold render, bind.
  rewrite (commit_length_idle w Hl Hp Hidle).
  unfold dirty. simpl. by rewrite bool_decide_eq_true_2.
Qed.

Lemma render_length_fire w r0 l :
  runs (app w) = r0 :: l →
  activePlots (app w) = [] →
  length (runs (app w)) ≠ committed_length w →
  plots_identity w = committed_plots w →
  render w
  = (inr tt,
     after_plots_commit
       (with_committed (length (runs (app w))) (plots_identity w)
          (fired r0 w))).
Proof.
  intros Hr Ha Hl Hp. unfold render, bind.
  rewrite (commit_length_fire w r0 l Hr Ha Hl Hp).
  unfold dirty. simpl.
  rewrite (bool_decide_eq_false_2 (S (plots_identity w) = plots_identity w))
    by lia.
  simpl. apply commit_plots; simpl; [done | lia].
Qed.

(** ** What one event does to a quiescent world *)

Lemma exec_then (m k : M unit) w :
  fst (m w) = inr tt → exec (m ;;; k) w = exec k (snd (m w)).
Proof.
  unfold exec, bind. destruct (m w) as [[e|[]] w1]; simpl; [done|].
  by intros _.
Qed.

Lemma exec_render_unchanged w : quiescent w → exec render w = w.
Proof. intros Hq. unfold exec. by rewrite render_unchanged. Qed.

Lemma step_outcome e w w' :
  quiescent w → step e w = Some w' → outcome_of w e w'.
Proof.
  intros Hq Hstep. destruct e as [| |r|r|o runId r|row|]; simpl in Hstep.
  - injection Hstep as <-.
    rewrite exec_then by (by rewrite live_callback_eq).
    rewrite live_callback_eq. simpl.
    rewrite exec_render_unchanged by exact Hq. constructor.
  - destruct (refresh_timer w) as [captured|] eqn:Ht; [|done].
    injection Hstep as <-.
    rewrite exec_then by (by rewrite refresh_callback_eq).
    rewrite refresh_callback_eq. simpl.
    rewrite exec_render_unchanged by exact Hq. by constructor.
  - unfold deliver in Hstep. case_bool_decide as Hin; [|done].
    injection Hstep as <-.
    rewrite exec_then by done. simpl.
    rewrite exec_then by (by destruct r).
    rewrite exec_render_unchanged by (by destruct r).
    by constructor.
  - unfold deliver in Hstep. case_bool_decide as Hin; [|done].
    injection Hstep as <-.
    rewrite exec_then by done. simpl.
    rewrite exec_then by (by destruct r).
    destruct Hq as [Hp Hl].
    destruct r as [e|e|l].
    + rewrite exec_render_unchanged by done.
      by apply out_runs_same.
    + rewrite exec_render_unchanged by done.
      by apply out_runs_same.
    + destruct (decide (length l = length (runs (app w)))) as [Hsame|Hdiff].
      * rewrite exec_render_unchanged
          by (split; simpl; [done | by rewrite Hsame]).
        apply out_runs_same; [done|]. by intros l' [= <-].
      * destruct l as [|r0 l].
        { unfold exec at 1. rewrite render_length_idle; simpl; auto.
          - by apply (out_runs_idle w []); auto.
          - by rewrite <- Hl. }
        destruct (activePlots (app w)) as [|id ids] eqn:Ha.
        { unfold exec at 1.
          rewrite (render_length_fire _ r0 l); simpl; auto.
          - by apply out_runs_fire.
          - by rewrite <- Hl. }
        unfold exec at 1. rewrite render_length_idle; simpl.
        -- apply out_runs_idle; [done..|]. right. by rewrite Ha.
        -- by rewrite <- Hl.
        -- done.
        -- right. by rewrite Ha.
  - unfold deliver in Hstep. case_bool_decide as Hin; [|done].
    injection Hstep as <-.
    rewrite exec_then by done. simpl.
    rewrite exec_then by (by destruct r).
    rewrite exec_render_unchanged by (by destruct r).
    by constructor.
  - destruct (visible_rows (app w) !! row) as [r|] eqn:Hrow; [|done].
    injection Hstep as <-.
    rewrite exec_then by done.
    destruct Hq as [Hp Hl].
    unfold exec at 1. rewrite render_plots; simpl; [|done|lia].
    by apply out_checkbox.
  - case_bool_decide as Hlen; [|done].
    injection Hstep as <-.
    rewrite exec_then by done.
    rewrite exec_render_unchanged by done.
    by constructor.
Qed.

(** ** Invariants of every reachable world *)

Lemma elem_of_toggle (runId id : string) (prev : list string) :
  id ∈ toggle runId prev ↔
  (id ≠ runId ∧ id ∈ prev) ∨ (id = runId ∧ runId ∉ prev).
Proof.
  unfold toggle. case_bool_decide as Hin.
  - rewrite list_elem_of_filter. split.
    + intros [Hne Hid]. by left.
    + intros [[Hne Hid] | [-> Hnot]]; [done | by destruct Hnot].
  - rewrite elem_of_app, list_elem_of_singleton. split.
    + intros [Hid | ->]; [left | by right].
      split; [|done]. by intros ->.
    + intros [[_ Hid] | [-> _]]; [by left | by right].
Qed.

Lemma NoDup_toggle (runId : string) (prev : list string) :
  NoDup prev → NoDup (toggle runId prev).
Proof.
  intros Hnd. unfold toggle. case_bool_decide as Hin.
  - by apply NoDup_filter.
  - apply NoDup_app. split; [done|]. split; [|apply NoDup_singleton].
    intros id Hid ->%list_elem_of_singleton. done.
Qed.

Lemma Inv_mounted : Inv mounted.
Proof.
  split; simpl; try done; try lia.
  apply NoDup_nil_2.
Qed.

Lemma Inv_outcome e w w' : Inv w → outcome_of w e w' → Inv w'.
Proof.
  intros [[Hp Hl] Hnd Hempty Hbound Hfresh] Hout.
  destruct Hout as [ |c Ht |r Hin |o runId r Hin |r Hin Hsame
                    |l Hin Hdiff Hidle |r0 l Hin Hdiff Ha |row r Hrow |Hlen].
  - by split.
  - by split.
  - destruct r; by split.
  - destruct r; by split.
  - destruct r as [e|e|l]; [by split..|].
    specialize (Hsame l eq_refl).
    split; simpl; try done.
    + split; simpl; [done | by rewrite Hsame].
    + intros Ha Hu. destruct (Hfresh Ha Hu) as [Hr Hs]. split; [|done].
      rewrite Hr in Hsame. by destruct l.
  - split; simpl; try done.
    intros Hau Hu. destruct (Hfresh Hau Hu) as [Hr Hs]. split; [|done].
    by destruct Hidle.
  - split; simpl.
    + split; simpl; done.
    + apply NoDup_singleton.
    + done.
    + specialize (Hempty Ha). lia.
    + done.
  - split; simpl.
    + split; simpl; done.
    + by apply NoDup_toggle.
    + intros ->. rewrite bool_decide_eq_true_2 by done. lia.
    + case_bool_decide; lia.
    + done.
  - by split.
Qed.

Lemma reachable_Inv w : reachable w → Inv w.
Proof.
  induction 1 as [|e w w' _ IH Hstep].
  - apply Inv_mounted.
  - apply (Inv_outcome e w w' IH).
    apply step_outcome; [apply IH | done].
Qed.

(** ** Parsing of the series *)

Lemma lookup_parse_series (arr : list string) (i : nat) :
  parse_series (Some arr) !! i = parseFloat <$> arr !! i.
Proof. unfold parse_series. apply list_lookup_fmap. Qed.

Example parseFloat_integer : parseFloat "1" = Finite false 1 0.
Proof. reflexivity. Qed.

Example parseFloat_fraction : parseFloat "0.4" = Finite false 4 (-1).
Proof. reflexivity. Qed.

Example parseFloat_not_a_number : parseFloat "x" = NaN.
Proof. reflexivity. Qed.

Example parseFloat_longest_prefix :
  parseFloat "  -12.50e+3px" = Finite true 1250 1.
Proof. reflexivity. Qed.

Example parseFloat_dangling_exponent : parseFloat "7e" = Finite false 7 0.
Proof. reflexivity. Qed.

Example parseFloat_lone_dot : parseFloat "." = NaN.
Proof. reflexivity. Qed.

Example parseFloat_infinity : parseFloat "-Infinity" = Infinity true.
Proof. reflexivity. Qed.

(** C1 (as amended): [steps] and [returns] are converted entry by entry
    with [parseFloat]; nothing is removed, so each parsed series is as long
    as the array it comes from and entry [i] is the conversion of text [i]
    (which is [NaN] when the text is not a number); a missing array gives
    the empty series.  On the documented example both series have four
    entries and the third step is [NaN]. *)
Theorem parse_results_keeps_every_entry (json : ResultsJson) :
  length (steps (parse_results json))
    = length (default [] (json_steps json))
  ∧ length (returns (parse_results json))
    = length (default [] (json_returns json))
  ∧ (∀ i s, default [] (json_steps json) !! i = Some s →
       steps (parse_results json) !! i = Some (parseFloat s))
  ∧ (∀ i s, default [] (json_returns json) !! i = Some s →
       returns (parse_results json) !! i = Some (parseFloat s))
  ∧ steps (parse_results example_json)
    = [Finite false 1 0; Finite false 2 0; NaN; Finite false 4 0]
  ∧ length (steps (parse_results example_json))
    = length (returns (parse_results example_json)).
Proof.
  destruct json as [[st|] [re|] other]; simpl;
    rewrite ?length_map; repeat split; try done;
    intros i s Hs; change (map parseFloat ?l) with (parse_series (Some l));
    rewrite lookup_parse_series, Hs; done.
Qed.

Lemma parse_results_keeps_every_entry_witness :
  steps (parse_results example_json) !! 2 = Some (parseFloat "x").
Proof.
  apply (parse_results_keeps_every_entry example_json). reflexivity.
Defined.

(** C1 (as stated) fails: on the documented example the malformed entry
    stays in the series as [NaN], which is not what dropping it gives. *)
Lemma parse_results_keeps_malformed_entry :
  steps (parse_results example_json) !! 2 = Some NaN
  ∧ length (steps (parse_results example_json)) = 4
  ∧ steps (parse_results example_json)
    ≠ spec_parse_series_dropping (json_steps example_json).
Proof. repeat split. discriminate. Qed.

(** ** The checkbox *)

(** C5: toggling the same run identifier twice gives back a selection with
    the membership it had, both for the updater and for two runs of the
    checkbox handler. *)
Theorem toggle_twice_same_membership
    (selection : list string) (r : string) (row : RunSummary) (w : World) :
  (∀ id, id ∈ toggle r (toggle r selection) ↔ id ∈ selection)
  ∧ (∀ id,
       id ∈ activePlots
              (app (exec (checkbox_onChange row ;;; checkbox_onChange row) w))
       ↔ id ∈ activePlots (app w)).
Proof.
  assert (Htwice : ∀ (r : string) (l : list string) id,
             id ∈ toggle r (toggle r l) ↔ id ∈ l).
  { clear. intros r l id. rewrite !elem_of_toggle.
    destruct (decide (id = r)) as [->|Hne].
    - destruct (decide (r ∈ l)); tauto.
    - tauto. }
  split; [apply Htwice|]. intros id. simpl. apply Htwice.
Qed.

(** ** The elapsed-time cell *)

Lemma length_repeat_char_app (k : nat) (c : ascii) (s : string) :
  String.length (repeat_char k c +:+ s) = k + String.length s.
Proof. induction k as [|k IH]; simpl; [done | by rewrite IH]. Qed.

Lemma length_pad_ge (num : integral) : (2 ≤ String.length (pad num))%nat.
Proof. unfold pad, padStart. rewrite length_repeat_char_app. lia. Qed.

Lemma elapsed_cell_whole_minutes (n : Z) :
  (0 < n < 6000)%Z →
  elapsed_cell (row_with_elapsed (Number_of_Z n))
  = two_digits (n / 60) +:+ ":" +:+ two_digits (n mod 60).
Proof.
  intros Hn.
  assert (Hall : Forall
            (λ k, elapsed_cell (row_with_elapsed (Number_of_Z k))
                  = two_digits (k / 60) +:+ ":" +:+ two_digits (k mod 60))
            (seqZ 1 5999)).
  { apply (bool_decide_unpack _). vm_compute. exact I. }
  rewrite Forall_forall in Hall. apply Hall.
  apply elem_of_seqZ. lia.
Qed.

(** C6 (as amended): [125] renders as [02:05], [59] as [00:59], a missing
    value as the placeholder; for every number other than [0], [-0] and
    [NaN] the cell is [Math.floor] of the sixtieth and [Math.floor] of the
    remainder by 60, each printed by [toString] and padded with zeros to
    at least two characters (so [90.5] renders as [01:30]); for a whole
    number of minutes below 6000 these are the two digits of the integer
    quotient and the two digits of the value modulo 60. *)
Theorem elapsed_cell_hours_minutes (r : RunSummary) :
  (elapsed_min r = Some 125%float → elapsed_cell r = "02:05")
  ∧ (elapsed_min r = Some 59%float → elapsed_cell r = "00:59")
  ∧ (elapsed_min r = None → elapsed_cell r = "-")
  ∧ (elapsed_min r = Some 90.5%float → elapsed_cell r = "01:30")
  ∧ (∀ x, elapsed_min r = Some x → truthy_number x = true →
       elapsed_cell r
       = pad (Math_floor (PrimFloat.div x 60))
         +:+ ":" +:+ pad (Math_floor (Number_remainder x 60))
       ∧ (2 ≤ String.length (pad (Math_floor (PrimFloat.div x 60))))%nat
       ∧ (2 ≤ String.length
                (pad (Math_floor (Number_remainder x 60))))%nat)
  ∧ (∀ n, (0 < n < 6000)%Z → elapsed_min r = Some (Number_of_Z n) →
       elapsed_cell r
       = two_digits (n / 60) +:+ ":" +:+ two_digits (n mod 60)).
Proof.
  split; [unfold elapsed_cell; by intros ->|].
  split; [unfold elapsed_cell; by intros ->|].
  split; [unfold elapsed_cell; by intros ->|].
  split; [unfold elapsed_cell; by intros ->|].
  split.
  - intros x Hx Htruthy. unfold elapsed_cell. rewrite Hx, Htruthy.
    split; [done|]. split; apply length_pad_ge.
  - intros n Hn Hx. rewrite <- (elapsed_cell_whole_minutes n Hn).
    unfold elapsed_cell. by rewrite Hx.
Qed.

Lemma elapsed_cell_hours_minutes_witness :
  elapsed_cell {| run := "r1"; model := None; best_reward := None;
                  last_avg_return := None; elapsed_min := Some 125%float |}
  = "02:05".
Proof.
  apply (elapsed_cell_hours_minutes
           {| run := "r1"; model := None; best_reward := None;
              last_avg_return := None; elapsed_min := Some 125%float |}).
  reflexivity.
Defined.

(** C6 (as stated) fails for a run that has been training for less than a
    minute: the value [0] is present, the rule gives [00:00], the cell
    shows the placeholder. *)
Lemma elapsed_cell_zero_is_not_hours_minutes :
  ¬ (∀ (r : RunSummary) (x : PrimFloat.float),
       elapsed_min r = Some x →
       elapsed_cell r
       = pad (Math_floor (PrimFloat.div x 60))
         +:+ ":" +:+ pad (Math_floor (Number_remainder x 60))).
Proof.
  intros Hall.
  specialize (Hall {| run := "r1"; model := None; best_reward := None;
                      last_avg_return := None;
                      elapsed_min := Some 0%float |}
                   0%float eq_refl).
  vm_compute in Hall. discriminate Hall.
Qed.

(** C9: a row whose [elapsed_min] is exactly [0] shows the placeholder and
    not [00:00]. *)
Theorem elapsed_cell_zero_placeholder (r : RunSummary) :
  elapsed_min r = Some 0%float →
  elapsed_cell r = "-" ∧ elapsed_cell r ≠ "00:00".
Proof. unfold elapsed_cell. intros ->. by split. Qed.

Lemma elapsed_cell_zero_placeholder_witness :
  elapsed_cell {| run := "r1"; model := Some "dqn"; best_reward := None;
                  last_avg_return := None; elapsed_min := Some 0%float |}
  = "-".
Proof.
  apply (elapsed_cell_zero_placeholder
           {| run := "r1"; model := Some "dqn"; best_reward := None;
              last_avg_return := None; elapsed_min := Some 0%float |}).
  reflexivity.
Defined.

(** ** Failed fetches *)

(** C7 (as amended): when [fetch] or [res.json()] rejects, each of the
    three operations returns normally, leaves every state cell as it was,
    and appends one line to the console; a response that comes with a JSON
    body, whatever its status, is not a failure for them: it is stored
    and nothing is logged. *)
Theorem failed_fetch_only_logs (w : World) (e runId : string) :
  let failed_with (m : M unit) (line : string) :=
    fst (m w) = inr tt
    ∧ app (snd (m w)) = app w
    ∧ snd (m w) = with_console (console w ++ [line]) w in
  failed_with (fetchLiveResults_resume (FetchRejected e))
    ("Failed to fetch live results: " +:+ e)
  ∧ failed_with (fetchLiveResults_resume (JsonRejected e))
      ("Failed to fetch live results: " +:+ e)
  ∧ failed_with (fetchRuns_resume (FetchRejected e))
      ("Failed to fetch runs summary: " +:+ e)
  ∧ failed_with (fetchRuns_resume (JsonRejected e))
      ("Failed to fetch runs summary: " +:+ e)
  ∧ failed_with (fetchRunData_resume runId (FetchRejected e))
      ("Failed to fetch data for run " +:+ runId +:+ ": " +:+ e)
  ∧ failed_with (fetchRunData_resume runId (JsonRejected e))
      ("Failed to fetch data for run " +:+ runId +:+ ": " +:+ e)
  ∧ (∀ json,
       fst (fetchLiveResults_resume (Json json) w) = inr tt
       ∧ console (snd (fetchLiveResults_resume (Json json) w)) = console w
       ∧ liveData (app (snd (fetchLiveResults_resume (Json json) w)))
         = parse_results json)
  ∧ (∀ l,
       fst (fetchRuns_resume (Json l) w) = inr tt
       ∧ console (snd (fetchRuns_resume (Json l) w)) = console w
       ∧ runs (app (snd (fetchRuns_resume (Json l) w))) = l)
  ∧ (∀ json,
       fst (fetchRunData_resume runId (Json json) w) = inr tt
       ∧ console (snd (fetchRunData_resume runId (Json json) w)) = console w
       ∧ runDataCache (app (snd (fetchRunData_resume runId (Json json) w)))
         !! runId
         = Some (parse_results json)).
Proof.
  assert (Happ : ∀ a b c : string, (a +:+ b +:+ c) = ((a +:+ b) +:+ c)).
  { clear. intros a b c. induction a as [|ch a IH]; [done|].
    change (String ch (a +:+ b +:+ c) = String ch ((a +:+ b) +:+ c)).
    by rewrite IH. }
  simpl. repeat split; simpl; try done.
  all: try apply lookup_insert_eq.
  all: unfold console_error, modify; simpl; do 3 f_equal;
    by rewrite <- !Happ.
Qed.

(** C7 (as stated) fails: the refresh of a run that is on the chart is
    answered with an HTTP error that has a JSON body; the cached series
    is replaced by an empty one, the run leaves the chart, and nothing is
    logged. *)
Lemma error_response_overwrites_entry :
  ∃ w w',
    run_events refresh_in_flight_trace mounted = Some w
    ∧ step (RunArrive Refresh "r1" (Json error_body)) w = Some w'
    ∧ runDataCache (app w) !! "r1" = Some (parse_results example_json)
    ∧ runDataCache (app w') !! "r1" = Some (parse_results error_body)
    ∧ steps (parse_results error_body) = []
    ∧ length (plot_data (app w)) = 1
    ∧ plot_data (app w') = []
    ∧ console w' = [].
Proof.
  eexists. eexists. split; [vm_compute; reflexivity|].
  split; [vm_compute; reflexivity|]. vm_compute. by repeat split.
Qed.

(** ** The chart *)

Lemma plot_series_Some a idx runId s :
  plot_series a idx runId = Some s →
  ∃ d, runDataCache a !! runId = Some d
       ∧ steps d ≠ []
       ∧ x s = steps d ∧ y s = returns d ∧ name s = runId
       ∧ colors !! (idx mod 6) = Some (line_color s).
Proof.
  unfold plot_series, get.
  destruct (find _ (runs a)) as [r|] eqn:Hfind; [|done].
  apply find_some in Hfind as [_ Heq]. apply String.eqb_eq in Heq.
  destruct (runDataCache a !! runId) as [d|] eqn:Hd;
    [|by case_bool_decide].
  case_bool_decide as Hlen; [done|]. intros [= <-]. exists d.
  split; [done|]. split; [by destruct (steps d)|].
  do 3 (split; [done|]).
  change (colors !! (idx mod 6)
          = Some (default "" (colors !! (idx mod 6)))).
  assert (Hlt : idx mod 6 < 6) by (apply Nat.mod_upper_bound; lia).
  destruct (lookup_lt_is_Some_2 colors (idx mod 6) Hlt) as [c Hc].
  by rewrite Hc.
Qed.

(** C8: every series on the chart comes from a selected run identifier
    that has a cache entry with a non-empty [steps]; its [x] and [y] are
    the cached steps and returns, its label is the identifier, and its
    color is the one at the identifier's position in the selection, modulo
    the six colors.  A selected identifier without a cache entry, or with
    an empty cached [steps], has no series. *)
Theorem plot_data_from_cached_selection (a : App) :
  (∀ s, s ∈ plot_data a →
     ∃ idx runId d,
       activePlots a !! idx = Some runId
       ∧ runDataCache a !! runId = Some d
       ∧ steps d ≠ []
       ∧ x s = steps d ∧ y s = returns d ∧ name s = runId
       ∧ colors !! (idx mod 6) = Some (line_color s))
  ∧ (∀ runId,
       runId ∈ activePlots a →
       runDataCache a !! runId = None
       ∨ (∃ d, runDataCache a !! runId = Some d ∧ steps d = []) →
       ∀ s, s ∈ plot_data a → name s ≠ runId)
  ∧ length colors = 6.
Proof.
  assert (Hfrom : ∀ s, s ∈ plot_data a →
     ∃ idx runId d,
       activePlots a !! idx = Some runId
       ∧ runDataCache a !! runId = Some d
       ∧ steps d ≠ []
       ∧ x s = steps d ∧ y s = returns d ∧ name s = runId
       ∧ colors !! (idx mod 6) = Some (line_color s)).
  { intros s Hs. unfold plot_data in Hs.
    apply list_elem_of_omap in Hs as (o & Ho & Hsome). simpl in Hsome.
    subst o. apply elem_of_lookup_imap in Ho as (idx & runId & Heq & Hidx).
    symmetry in Heq. apply plot_series_Some in Heq as (d & Hd).
    by exists idx, runId, d. }
  split; [exact Hfrom|]. split; [|done].
  intros runId _ Hmissing s Hs Hname.
  destruct (Hfrom s Hs) as (idx & runId' & d & _ & Hd & Hsteps & _ & _ & Hn & _).
  rewrite Hname in Hn. subst runId'.
  destruct Hmissing as [Hnone | (d' & Hd' & Hempty)]; [congruence|].
  rewrite Hd in Hd'. injection Hd' as <-. done.
Qed.

(** ** Executions *)

Lemma run_events_reachable es w w' :
  reachable w → run_events es w = Some w' → reachable w'.
Proof.
  revert w. induction es as [|e es IH]; intros w Hw Hrun; simpl in Hrun.
  - by injection Hrun as <-.
  - destruct (step e w) as [w1|] eqn:Hstep; [|done].
    apply (IH w1); [|done]. by apply (reachable_step e w).
Qed.

Lemma run_events_Inv es w : run_events es mounted = Some w → Inv w.
Proof.
  intros Hrun. apply reachable_Inv.
  apply (run_events_reachable es mounted); [constructor | done].
Qed.

Lemma run_events_outcome es w e w' :
  run_events es mounted = Some w → step e w = Some w' → outcome_of w e w'.
Proof.
  intros Hrun Hstep. apply step_outcome; [|done].
  apply (run_events_Inv es w Hrun).
Qed.

(** C10: in every execution the selection holds each run identifier at
    most once; the checkbox updater keeps a duplicate-free selection
    duplicate-free. *)
Theorem selection_has_no_duplicates (es : list event) (w : World) :
  run_events es mounted = Some w →
  NoDup (activePlots (app w))
  ∧ (∀ runId, NoDup (toggle runId (activePlots (app w)))).
Proof.
  intros Hrun. pose proof (inv_nodup w (run_events_Inv es w Hrun)) as Hnd.
  split; [done|]. intros runId. by apply NoDup_toggle.
Qed.

Lemma selection_has_no_duplicates_witness :
  ∃ w, run_events refetch_trace mounted = Some w
       ∧ activePlots (app w) = ["r2"; "r1"]
       ∧ NoDup (activePlots (app w)).
Proof.
  eexists. split; [vm_compute; reflexivity|]. split; [reflexivity|].
  eapply (selection_has_no_duplicates refetch_trace).
  vm_compute. reflexivity.
Defined.




(** C3: when a non-empty run list arrives while nothing is selected and
    nothing has ever been selected, the selection becomes exactly the
    first listed run. *)
Theorem first_run_list_selects_first
    (es : list event) (w : World) (r0 : RunSummary) (l : list RunSummary) :
  run_events es mounted = Some w →
  auto_selections w = 0 →
  user_toggles w = 0 →
  activePlots (app w) = [] →
  GetRuns ∈ pending w →
  ∃ w', step (RunsArrive (Json (r0 :: l))) w = Some w'
        ∧ activePlots (app w') = [run r0].
Proof.
  intros Hrun Hauto Htoggles Hempty Hin.
  pose proof (run_events_Inv es w Hrun) as HInv.
  destruct (inv_fresh w HInv Hauto Htoggles) as [Hruns _].
  destruct (step (RunsArrive (Json (r0 :: l))) w) as [w'|] eqn:Hstep.
  - exists w'. split; [done|].
    pose proof (run_events_outcome es w _ w' Hrun Hstep) as Hout.
    inversion Hout as [ | | | |r Hin' Hsame Hr
                       |l' Hin' Hdiff Hidle Hl |r0' l' Hin' Hdiff Ha Hr| | ];
      subst.
    + specialize (Hsame _ eq_refl). by rewrite Hruns in Hsame.
    + by destruct Hidle.
    + done.
  - simpl in Hstep. unfold deliver in Hstep.
    by rewrite bool_decide_eq_true_2 in Hstep.
Qed.

Lemma first_run_list_selects_first_witness :
  ∃ w', step (RunsArrive (Json [run_summary "r2"; run_summary "r1"])) mounted
        = Some w'
        ∧ activePlots (app w') = ["r2"].
Proof.
  apply (first_run_list_selects_first [] mounted (run_summary "r2")
           [run_summary "r1"]).
  - reflexivity.
  - reflexivity.
  - reflexivity.
  - reflexivity.
  - vm_compute. apply list_elem_of_further, list_elem_of_here.
Defined.

(** ** On-demand requests *)

Lemma on_demand_count_app runId l1 l2 :
  on_demand_count runId (l1 ++ l2)
  = on_demand_count runId l1 + on_demand_count runId l2.
Proof. unfold on_demand_count. by rewrite filter_app, length_app. Qed.

Lemma on_demand_count_refresh runId captured :
  on_demand_count runId (refresh_requests captured) = 0.
Proof.
  unfold on_demand_count, refresh_requests.
  induction captured as [|id ids IH]; [done|]. simpl.
  by rewrite filter_cons_False.
Qed.

Lemma on_demand_count_population_absent runId a :
  runId ∉ activePlots a →
  on_demand_count runId (population_requests a) = 0.
Proof.
  unfold on_demand_count, population_requests.
  induction (activePlots a) as [|id ids IH]; [done|].
  intros Hnot. apply not_elem_of_cons in Hnot as [Hne Hnot]. simpl.
  destruct (negb _); simpl; [|by apply IH].
  rewrite filter_cons_False by congruence. by apply IH.
Qed.

Lemma on_demand_count_population_cached runId a :
  is_Some (runDataCache a !! runId) →
  on_demand_count runId (population_requests a) = 0.
Proof.
  intros [d Hd]. unfold on_demand_count, population_requests.
  induction (activePlots a) as [|id ids IH]; [done|]. simpl.
  destruct (negb (truthy (get (runDataCache a) id))) eqn:Hget; simpl;
    [|done].
  rewrite filter_cons_False; [done|].
  intros [= ->]. unfold get in Hget. by rewrite Hd in Hget.
Qed.

Lemma on_demand_count_population_le runId a :
  NoDup (activePlots a) →
  on_demand_count runId (population_requests a) ≤ 1.
Proof.
  unfold on_demand_count, population_requests.
  set (f := λ id : string,
              if negb (truthy (get (runDataCache a) id))
              then Some (GetRun OnDemand id) else None).
  assert (Habsent : ∀ l : list string, runId ∉ l →
            length (filter (λ r, r = GetRun OnDemand runId) (omap f l)) = 0).
  { induction l as [|id ids IH]; [done|].
    intros Hnot. apply not_elem_of_cons in Hnot as [Hne Hnot]. simpl.
    unfold f at 1. destruct (negb _); simpl; [|by apply IH].
    rewrite filter_cons_False by congruence. by apply IH. }
  induction (activePlots a) as [|id ids IH]; intros Hnd; simpl; [lia|].
  apply NoDup_cons in Hnd as [Hnot Hnd].
  unfold f at 1. destruct (negb _); simpl; [|by apply IH].
  destruct (decide (id = runId)) as [->|Hne].
  - rewrite filter_cons_True by done. cbn [length].
    apply le_n_S. apply Nat.eq_le_incl. apply (Habsent ids Hnot).
  - rewrite filter_cons_False by congruence. by apply IH.
Qed.

Lemma issued_after_plots_commit w :
  issued (after_plots_commit w) = issued w ++ population_requests (app w).
Proof. reflexivity. Qed.

Lemma outcome_on_demand w e w' runId :
  Inv w → outcome_of w e w' →
  on_demand_count runId (issued w')
    ≤ on_demand_count runId (issued w) + 1
  ∧ (is_Some (runDataCache (app w) !! runId) →
     on_demand_count runId (issued w')
       = on_demand_count runId (issued w))
  ∧ (plots_identity w' = plots_identity w →
     on_demand_count runId (issued w')
       = on_demand_count runId (issued w))
  ∧ (∀ o id r, e = RunArrive o id r → issued w' = issued w).
Proof.
  intros HInv Hout.
  pose proof (inv_nodup w HInv) as Hnd.
  destruct Hout as [ |c Ht |r Hin |o runId' r Hin |r Hin Hsame
                    |l Hin Hdiff Hidle |r0 l Hin Hdiff Ha |row r Hrow |Hlen].
  - simpl. rewrite on_demand_count_app.
    change (on_demand_count runId [GetResults; GetRuns]) with 0.
    repeat split; try lia. done.
  - simpl. rewrite on_demand_count_app, on_demand_count_refresh.
    repeat split; try lia. done.
  - destruct r; simpl; repeat split; try lia; done.
  - destruct r; simpl; repeat split; try lia; done.
  - destruct r; simpl; repeat split; try lia; done.
  - simpl. repeat split; try lia; done.
  - rewrite issued_after_plots_commit, on_demand_count_app.
    match goal with
    | |- context [population_requests ?a] => set (a1 := a)
    end.
    change (issued _) with (issued w).
    repeat split.
    + pose proof (on_demand_count_population_le runId a1) as Hle.
      simpl in Hle. specialize (Hle (NoDup_singleton _)). lia.
    + intros Hcached.
      rewrite (on_demand_count_population_cached runId a1) by done. lia.
    + simpl. lia.
    + done.
  - rewrite issued_after_plots_commit, on_demand_count_app.
    match goal with
    | |- context [population_requests ?a] => set (a1 := a)
    end.
    change (issued _) with (issued w).
    repeat split.
    + pose proof (on_demand_count_population_le runId a1) as Hle.
      simpl in Hle. specialize (Hle (NoDup_toggle _ _ Hnd)). lia.
    + intros Hcached.
      rewrite (on_demand_count_population_cached runId a1) by done. lia.
    + simpl. lia.
    + done.
  - simpl. repeat split; try lia; done.
Qed.

(** C4 (as amended): one event issues at most one on-demand fetch for a
    run identifier, and only an event that installs a new selection does
    so (a later change of the selection can therefore issue it again for
    an identifier whose data is still in flight); once the identifier has
    a cache entry no on-demand fetch for it is issued; the completion of a
    fetch issues no request at all. *)
Theorem on_demand_fetch_per_selection_change
    (es : list event) (w : World) (e : event) (w' : World)
    (runId : string) :
  run_events es mounted = Some w →
  step e w = Some w' →
  on_demand_count runId (issued w')
    ≤ on_demand_count runId (issued w) + 1
  ∧ (is_Some (runDataCache (app w) !! runId) →
     on_demand_count runId (issued w')
       = on_demand_count runId (issued w))
  ∧ (plots_identity w' = plots_identity w →
     on_demand_count runId (issued w')
       = on_demand_count runId (issued w))
  ∧ (∀ o id r, e = RunArrive o id r → issued w' = issued w).
Proof.
  intros Hrun Hstep. apply outcome_on_demand.
  - apply (run_events_Inv es w Hrun).
  - apply (run_events_outcome es w e w' Hrun Hstep).
Qed.

Lemma on_demand_fetch_per_selection_change_witness :
  ∃ w w',
    run_events [RunsArrive (Json [run_summary "r2"; run_summary "r1"])]
      mounted = Some w
    ∧ step (RunArrive OnDemand "r2" (Json example_json)) w = Some w'
    ∧ issued w' = issued w.
Proof.
  eexists. eexists. split; [vm_compute; reflexivity|].
  split; [vm_compute; reflexivity|].
  eapply (on_demand_fetch_per_selection_change
            [RunsArrive (Json [run_summary "r2"; run_summary "r1"])]
            _ (RunArrive OnDemand "r2" (Json example_json)) _ "r2").
  - vm_compute. reflexivity.
  - vm_compute. reflexivity.
  - reflexivity.
Defined.

(** C4 (as stated) fails: the data of ["r2"] is requested on demand twice
    before any entry for it exists. *)
Lemma on_demand_fetch_issued_twice :
  ∃ w, run_events refetch_trace mounted = Some w
       ∧ runDataCache (app w) !! "r2" = None
       ∧ on_demand_count "r2" (issued w) = 2.
Proof.
  eexists. split; [vm_compute; reflexivity|]. split; [done|].
  vm_compute. reflexivity.
Qed.

(** * Further properties of the component *)

(** ** The render loop *)

Lemma effect_default_selection_ok (a : App) (w : World) :
  ∃ w', effect_default_selection a w = (inr tt, w')
        ∧ runs (app w') = runs (app w)
        ∧ committed_length w' = committed_length w
        ∧ committed_plots w' = committed_plots w
        ∧ (plots_identity w' = plots_identity w
           ∨ plots_identity w' = S (plots_identity w)).
Proof.
  unfold effect_default_selection.
  destruct (runs a) as [|r0 l]; simpl.
  - exists w. repeat split; auto.
  - destruct (bool_decide (length (activePlots a) = 0)); simpl.
    + eexists. split; [reflexivity|]. simpl. repeat split; auto.
    + exists w. repeat split; auto.
Qed.

Lemma commit_ok (w : World) :
  ∃ w', commit w = (inr tt, w')
        ∧ runs (app w') = runs (app w)
        ∧ committed_length w' = length (runs (app w))
        ∧ committed_plots w' = plots_identity w
        ∧ (plots_identity w' = plots_identity w
           ∨ plots_identity w' = S (plots_identity w))
        ∧ (length (runs (app w)) = committed_length w →
           plots_identity w' = plots_identity w).
Proof.
  unfold commit, bind.
  destruct (bool_decide (length (runs (app w)) = committed_length w))
    eqn:Hlen; simpl.
  - destruct (bool_decide (plots_identity w = committed_plots w)); simpl.
    + eexists. split; [reflexivity|]. simpl. repeat split; auto.
    + rewrite effect_cache_population_eq. simpl.
      eexists. split; [reflexivity|]. simpl. repeat split; auto.
  - apply bool_decide_eq_false in Hlen.
    destruct (effect_default_selection_ok (app w) w)
      as (w1 & -> & Hruns & Hcl & Hcp & Hid).
    destruct (bool_decide (plots_identity w = committed_plots w)); simpl.
    + eexists. split; [reflexivity|]. simpl. repeat split; auto. done.
    + rewrite effect_cache_population_eq. simpl.
      eexists. split; [reflexivity|]. simpl. repeat split; auto. done.
Qed.

(** X1: whatever the state, rendering never throws and comes to rest
    after at most two commits: the dependencies stored by the last commit
    are those of the state it leaves, so one more commit changes
    nothing. *)
Theorem render_settles (w : World) :
  fst (render w) = inr tt
  ∧ quiescent (exec render w)
  ∧ commit (exec render w) = (inr tt, exec render w).
Proof.
  assert (Hmain : fst (render w) = inr tt ∧ quiescent (exec render w)).
  { unfold exec, render, bind.
    destruct (commit_ok w) as (w1 & -> & Hr1 & Hl1 & Hp1 & Hid1 & _).
    unfold dirty.
    destruct (bool_decide (plots_identity w1 = committed_plots w1))
      eqn:Hclean; simpl.
    - apply bool_decide_eq_true in Hclean. split; [done|].
      split; [done|]. by rewrite Hr1, Hl1.
    - destruct (commit_ok w1) as (w2 & -> & Hr2 & Hl2 & Hp2 & _ & Hid2).
      simpl. split; [done|]. split.
      + rewrite Hp2. apply Hid2. by rewrite Hr1, Hl1.
      + by rewrite Hr2, Hl2. }
  destruct Hmain as [Hok Hq]. split; [done|]. split; [done|].
  by apply commit_unchanged.
Qed.

(** ** The refresh interval *)

Lemma timer_outcome e w w' :
  refresh_timer w = timer_of (app w) → outcome_of w e w' →
  refresh_timer w' = timer_of (app w').
Proof.
  intros Ht Hout.
  destruct Hout as [ |c Hc |r Hin |o runId r Hin |r Hin Hsame
                    |l Hin Hdiff Hidle |r0 l Hin Hdiff Ha |row r Hrow |Hlen];
    try done; by destruct r.
Qed.

Lemma reachable_timer w : reachable w → refresh_timer w = timer_of (app w).
Proof.
  induction 1 as [|e w w' Hw IH Hstep]; [done|].
  apply (timer_outcome e w w' IH).
  apply step_outcome; [apply (reachable_Inv w Hw) | done].
Qed.

Lemma run_events_timer es w :
  run_events es mounted = Some w → refresh_timer w = timer_of (app w).
Proof.
  intros Hrun. apply reachable_timer.
  apply (run_events_reachable es mounted); [constructor | done].
Qed.

(** X2: in every execution the refresh interval exists exactly when
    something is selected, and its callback holds the current selection:
    no interval survives a change of the selection. *)
Theorem refresh_timer_follows_selection (es : list event) (w : World) :
  run_events es mounted = Some w →
  (activePlots (app w) = [] → refresh_timer w = None)
  ∧ (activePlots (app w) ≠ [] →
     refresh_timer w = Some (activePlots (app w))).
Proof.
  intros Hrun. rewrite (run_events_timer es w Hrun). unfold timer_of.
  destruct (activePlots (app w)) as [|id ids]; simpl; split; done.
Qed.

Lemma refresh_timer_follows_selection_witness :
  ∃ w, run_events reselect_trace mounted = Some w
       ∧ refresh_timer w = Some ["r2"].
Proof.
  eexists. split; [vm_compute; reflexivity|].
  apply (refresh_timer_follows_selection reselect_trace);
    [vm_compute; reflexivity | discriminate].
Defined.

(** X3: a tick of the refresh interval requests the data of every selected
    run, once each and in selection order, whether or not it is cached,
    and changes nothing in the component's state; with an empty selection
    there is no such tick. *)
Theorem refresh_tick_requests_selection (es : list event) (w : World) :
  run_events es mounted = Some w →
  (activePlots (app w) = [] → step RefreshTick w = None)
  ∧ (activePlots (app w) ≠ [] →
     ∃ w', step RefreshTick w = Some w'
           ∧ app w' = app w
           ∧ issued w' = issued w ++ (GetRun Refresh <$> activePlots (app w))
           ∧ pending w'
             = pending w ++ (GetRun Refresh <$> activePlots (app w))).
Proof.
  intros Hrun.
  pose proof (run_events_timer es w Hrun) as Ht.
  pose proof (run_events_Inv es w Hrun) as HInv.
  unfold timer_of in Ht. split.
  - intros Hempty. rewrite Hempty in Ht. simpl in Ht.
    simpl. by rewrite Ht.
  - intros Hsel.
    rewrite bool_decide_eq_true_2 in Ht
      by (destruct (activePlots (app w)); [done | simpl; lia]).
    destruct (step RefreshTick w) as [w'|] eqn:Hstep;
      [|simpl in Hstep; by rewrite Ht in Hstep].
    exists w'. split; [done|].
    pose proof (run_events_outcome es w _ w' Hrun Hstep) as Hout.
    inversion Hout as [ |c Hc| | | | | | | ]; subst.
    rewrite Ht in Hc. injection Hc as <-. done.
Qed.

Lemma refresh_tick_requests_selection_witness :
  ∃ w w', run_events refetch_trace mounted = Some w
          ∧ step RefreshTick w = Some w'
          ∧ issued w'
            = issued w ++ [GetRun Refresh "r2"; GetRun Refresh "r1"].
Proof.
  eexists. eexists. split; [vm_compute; reflexivity|].
  split; [vm_compute; reflexivity|].
  destruct (refresh_tick_requests_selection refetch_trace
              (default mounted (run_events refetch_trace mounted)))
    as [_ Hsel]; [vm_compute; reflexivity|].
  destruct Hsel as (w' & Hstep & _ & Hissued & _); [discriminate|].
  vm_compute in Hstep. injection Hstep as <-. vm_compute. reflexivity.
Defined.

(** ** Which events touch which state *)

Lemma outcome_app e w w' :
  outcome_of w e w' →
  runs (app w') = runs (app w) ∨ ∃ l, e = RunsArrive (Json l).
Proof.
  intros Hout.
  destruct Hout as [ |c Hc |r Hin |o runId r Hin |r Hin Hsame
                    |l Hin Hdiff Hidle |r0 l Hin Hdiff Ha |row r Hrow |Hlen];
    try (by left); try (by right; eexists).
  - destruct r; by left.
  - destruct r; by left.
  - destruct r as [e|e|l]; [by left..|]. right. by exists l.
Qed.

Lemma outcome_selection e w w' :
  outcome_of w e w' →
  (activePlots (app w') = activePlots (app w)
   ∧ plots_identity w' = plots_identity w)
  ∨ (∃ row r, e = ClickCheckbox row
              ∧ visible_rows (app w) !! row = Some r
              ∧ activePlots (app w') = toggle (run r) (activePlots (app w)))
  ∨ (∃ r0 l, e = RunsArrive (Json (r0 :: l))
             ∧ activePlots (app w) = []
             ∧ activePlots (app w') = [run r0]).
Proof.
  intros Hout.
  destruct Hout as [ |c Hc |r Hin |o runId r Hin |r Hin Hsame
                    |l Hin Hdiff Hidle |r0 l Hin Hdiff Ha |row r Hrow |Hlen];
    try (by left).
  - destruct r; by left.
  - destruct r; by left.
  - destruct r; by left.
  - right. right. by exists r0, l.
  - right. left. by exists row, r.
Qed.

Lemma outcome_cache e w w' :
  outcome_of w e w' →
  runDataCache (app w') = runDataCache (app w)
  ∨ ∃ o runId json,
      e = RunArrive o runId (Json json)
      ∧ runDataCache (app w')
        = <[runId := parse_results json]> (runDataCache (app w)).
Proof.
  intros Hout.
  destruct Hout as [ |c Hc |r Hin |o runId r Hin |r Hin Hsame
                    |l Hin Hdiff Hidle |r0 l Hin Hdiff Ha |row r Hrow |Hlen];
    try (by left).
  - destruct r; by left.
  - destruct r as [e|e|json]; [by left..|]. right. by exists o, runId, json.
  - destruct r; by left.
Qed.

(** X4: the selection is changed only by a click on a checkbox, which
    toggles the identifier of a row that is on the page, or by the arrival
    of a non-empty run list while nothing is selected, which selects the
    first listed run; ticks, other responses and the show/hide link leave
    it as it is. *)
Theorem selection_changes_only_by_click_or_default
    (es : list event) (w : World) (e : event) (w' : World) :
  run_events es mounted = Some w →
  step e w = Some w' →
  activePlots (app w') = activePlots (app w)
  ∨ (∃ row r, e = ClickCheckbox row
              ∧ visible_rows (app w) !! row = Some r
              ∧ r ∈ runs (app w)
              ∧ activePlots (app w') = toggle (run r) (activePlots (app w)))
  ∨ (∃ r0 l, e = RunsArrive (Json (r0 :: l))
             ∧ activePlots (app w) = []
             ∧ activePlots (app w') = [run r0]).
Proof.
  intros Hrun Hstep.
  pose proof (run_events_outcome es w e w' Hrun Hstep) as Hout.
  destruct (outcome_selection e w w' Hout)
    as [[Hsame _] | [(row & r & -> & Hrow & Htoggle) | Hfire]].
  - by left.
  - right. left. exists row, r. repeat split; try done.
    apply list_elem_of_lookup_2 in Hrow. unfold visible_rows in Hrow.
    destruct (showAllRuns (app w)); [done|].
    by apply (subseteq_take 1).
  - by right; right.
Qed.

Lemma selection_changes_only_by_click_or_default_witness :
  ∃ w w', run_events [RunsArrive (Json [run_summary "r1"])] mounted = Some w
          ∧ step LiveTick w = Some w'
          ∧ activePlots (app w') = activePlots (app w).
Proof.
  eexists. eexists. split; [vm_compute; reflexivity|].
  split; [vm_compute; reflexivity|].
  destruct (selection_changes_only_by_click_or_default
              [RunsArrive (Json [run_summary "r1"])]
              (default mounted
                 (run_events [RunsArrive (Json [run_summary "r1"])] mounted))
              LiveTick
              (default mounted
                 (run_events [RunsArrive (Json [run_summary "r1"]); LiveTick]
                    mounted)))
    as [Hsame | [(row & r & He & _) | (r0 & l & He & _)]];
    [vm_compute; reflexivity | vm_compute; reflexivity | | | ];
    [exact Hsame | discriminate He | discriminate He].
Defined.

(** ** The cache *)

Lemma elem_of_population_requests (a : App) (req : request) :
  req ∈ population_requests a ↔
  ∃ runId, req = GetRun OnDemand runId
           ∧ runId ∈ activePlots a
           ∧ get (runDataCache a) runId = Undefined.
Proof.
  unfold population_requests. rewrite list_elem_of_omap. split.
  - intros (runId & Hin & Hreq). exists runId.
    destruct (get (runDataCache a) runId); simpl in Hreq; try done.
    by injection Hreq as <-.
  - intros (runId & -> & Hin & Hget). exists runId.
    by rewrite Hget.
Qed.

Lemma get_Undefined (cache : gmap string RunData) (key : string) :
  get cache key = Undefined ↔ cache !! key = None ∧ key ∉ Object_prototype.
Proof.
  unfold get. destruct (cache !! key); [by split; [|intros []]|].
  case_bool_decide; split; try done; by intros [].
Qed.

Lemma outcome_on_demand_issued e w w' runId :
  outcome_of w e w' →
  GetRun OnDemand runId ∈ issued w' →
  GetRun OnDemand runId ∈ issued w
  ∨ get (runDataCache (app w)) runId = Undefined.
Proof.
  intros Hout.
  destruct Hout as [ |c Hc |r Hin |o runId' r Hin |r Hin Hsame
                    |l Hin Hdiff Hidle |r0 l Hin Hdiff Ha |row r Hrow |Hlen].
  - simpl. rewrite elem_of_app. intros [H|H]; [by left|].
    apply elem_of_cons in H as [H|H]; [done|].
    by apply list_elem_of_singleton in H.
  - simpl. rewrite elem_of_app. intros [H|H]; [by left|].
    unfold refresh_requests in H.
    by apply list_elem_of_fmap in H as (id & Hid & _).
  - destruct r; by left.
  - destruct r; by left.
  - destruct r; by left.
  - by left.
  - rewrite issued_after_plots_commit, elem_of_app. intros [H|H]; [by left|].
    apply elem_of_population_requests in H as (id & [= <-] & _ & Hget).
    by right.
  - rewrite issued_after_plots_commit, elem_of_app. intros [H|H]; [by left|].
    apply elem_of_population_requests in H as (id & [= <-] & _ & Hget).
    by right.
  - by left.
Qed.

(** X5: a run whose identifier is the name of a member of
    [Object.prototype] (["constructor"], ["toString"], ...) is never
    fetched on demand: the lookup [runDataCache[runId]] finds the
    inherited member, which is truthy. *)
Theorem prototype_named_run_never_fetched_on_demand
    (es : list event) (w : World) (runId : string) :
  run_events es mounted = Some w →
  runId ∈ Object_prototype →
  GetRun OnDemand runId ∉ issued w.
Proof.
  intros Hrun Hproto.
  assert (Hreach : reachable w)
    by (apply (run_events_reachable es mounted); [constructor | done]).
  clear Hrun. induction Hreach as [|e w w' Hw IH Hstep].
  - intros H. apply elem_of_cons in H as [H|H]; [done|].
    by apply list_elem_of_singleton in H.
  - intros H.
    assert (Hout : outcome_of w e w')
      by (apply step_outcome; [apply (reachable_Inv w Hw) | done]).
    destruct (outcome_on_demand_issued e w w' runId Hout H) as [Hold|Hget].
    + by apply IH.
    + apply get_Undefined in Hget as [_ Hnot]. by apply Hnot.
Qed.

Lemma prototype_named_run_never_fetched_on_demand_witness :
  (GetRun OnDemand "constructor"
   ∉ issued (world_after [RunsArrive (Json [run_summary "constructor"])]))
  ∧ activePlots
      (app (world_after [RunsArrive (Json [run_summary "constructor"])]))
    = ["constructor"].
Proof.
  split; [|reflexivity].
  apply (prototype_named_run_never_fetched_on_demand
           [RunsArrive (Json [run_summary "constructor"])]).
  - vm_compute. reflexivity.
  - apply list_elem_of_here.
Defined.

Lemma on_demand_count_population_one runId a :
  NoDup (activePlots a) →
  runId ∈ activePlots a →
  get (runDataCache a) runId = Undefined →
  on_demand_count runId (population_requests a) = 1.
Proof.
  intros Hnd Hin Hget.
  pose proof (on_demand_count_population_le runId a Hnd) as Hle.
  assert (Hreq : GetRun OnDemand runId ∈ population_requests a)
    by (apply elem_of_population_requests; by exists runId).
  assert (Hfil : GetRun OnDemand runId
                 ∈ filter (λ r, r = GetRun OnDemand runId)
                     (population_requests a))
    by (by apply list_elem_of_filter).
  unfold on_demand_count in *.
  destruct (filter _ (population_requests a)) as [|r l];
    [by apply elem_of_nil in Hfil | simpl in *; lia].
Qed.

Lemma on_demand_count_remove_first runId (req : request)
    (l : list request) :
  req ≠ GetRun OnDemand runId →
  on_demand_count runId (remove_first req l) = on_demand_count runId l.
Proof.
  intros Hreq. unfold on_demand_count.
  induction l as [|q l IH]; [done|]. simpl.
  case_bool_decide as Hq.
  - subst q. by rewrite filter_cons_False.
  - destruct (decide (q = GetRun OnDemand runId)) as [->|Hne].
    + rewrite !filter_cons_True by done. simpl. by rewrite IH.
    + by rewrite !filter_cons_False by done.
Qed.

(** X6: a change of the selection (by a click or by the default rule)
    sends, for every identifier of the new selection that has no cache
    entry and is not the name of a member of [Object.prototype], exactly
    one on-demand request, which is then in flight (beside any that an
    earlier change left in flight). *)
Theorem selection_change_requests_uncached
    (es : list event) (w : World) (e : event) (w' : World)
    (runId : string) :
  run_events es mounted = Some w →
  step e w = Some w' →
  plots_identity w' ≠ plots_identity w →
  runId ∈ activePlots (app w') →
  runDataCache (app w') !! runId = None →
  runId ∉ Object_prototype →
  on_demand_count runId (issued w') = S (on_demand_count runId (issued w))
  ∧ on_demand_count runId (pending w')
    = S (on_demand_count runId (pending w))
  ∧ GetRun OnDemand runId ∈ pending w'.
Proof.
  intros Hrun Hstep Hchanged Hin Hnone Hproto.
  pose proof (run_events_outcome es w e w' Hrun Hstep) as Hout.
  pose proof (inv_nodup w (run_events_Inv es w Hrun)) as Hnd.
  assert (Hget : get (runDataCache (app w')) runId = Undefined)
    by (by apply get_Undefined).
  destruct Hout as [ |c Hc |r Hin' |o runId' r Hin' |r Hin' Hsame
                    |l Hin' Hdiff Hidle |r0 l Hin' Hdiff Ha |row r Hrow |Hlen];
    try done.
  - by destruct r.
  - by destruct r.
  - by destruct r.
  - match goal with
    | |- context [pending (after_plots_commit ?W)] =>
        change (pending (after_plots_commit W))
          with (pending W ++ population_requests (app W));
        change (issued (after_plots_commit W))
          with (issued w ++ population_requests (app W));
        assert (Hone : on_demand_count runId (population_requests (app W))
                       = 1)
          by (apply on_demand_count_population_one;
              [apply NoDup_singleton | done | done])
    end.
    rewrite !on_demand_count_app, Hone. split; [lia|].
    split.
    + simpl. rewrite on_demand_count_remove_first by done. lia.
    + apply elem_of_app. right. apply elem_of_population_requests.
      by exists runId.
  - match goal with
    | |- context [pending (after_plots_commit ?W)] =>
        change (pending (after_plots_commit W))
          with (pending w ++ population_requests (app W));
        change (issued (after_plots_commit W))
          with (issued w ++ population_requests (app W));
        assert (Hone : on_demand_count runId (population_requests (app W))
                       = 1)
          by (apply on_demand_count_population_one;
              [by apply NoDup_toggle | done | done])
    end.
    rewrite !on_demand_count_app, Hone. split; [lia|]. split; [lia|].
    apply elem_of_app. right. apply elem_of_population_requests.
    by exists runId.
Qed.

Lemma selection_change_requests_uncached_witness :
  on_demand_count "r2" (issued (world_after refetch_trace))
  = S (on_demand_count "r2"
         (issued
            (world_after
               [RunsArrive (Json [run_summary "r2"; run_summary "r1"]);
                ClickShowAll])))
  ∧ on_demand_count "r2" (pending (world_after refetch_trace)) = 2.
Proof.
  destruct (selection_change_requests_uncached
              [RunsArrive (Json [run_summary "r2"; run_summary "r1"]);
               ClickShowAll]
              (world_after
                 [RunsArrive (Json [run_summary "r2"; run_summary "r1"]);
                  ClickShowAll])
              (ClickCheckbox 1)
              (world_after refetch_trace)
              "r2")
    as (Hissued & Hpending & _).
  - vm_compute. reflexivity.
  - vm_compute. reflexivity.
  - vm_compute. discriminate.
  - vm_compute. apply list_elem_of_here.
  - reflexivity.
  - apply (bool_decide_unpack _). vm_compute. exact I.
  - split; [exact Hissued|]. rewrite Hpending. vm_compute. reflexivity.
Defined.

Lemma reachable_cache_kept es w w' (key : string) :
  reachable w → run_events es w = Some w' →
  is_Some (runDataCache (app w) !! key) →
  is_Some (runDataCache (app w') !! key).
Proof.
  revert w. induction es as [|e es IH]; intros w Hw Hrun Hkey;
    simpl in Hrun.
  - by injection Hrun as <-.
  - destruct (step e w) as [w1|] eqn:Hstep; [|done].
    apply (IH w1); [by apply (reachable_step e w) | done |].
    assert (Hout : outcome_of w e w1)
      by (apply step_outcome; [apply (reachable_Inv w Hw) | done]).
    destruct (outcome_cache e w w1 Hout) as [-> | (o & id & json & _ & ->)];
      [done|].
    destruct (decide (id = key)) as [->|Hne].
    + rewrite lookup_insert_eq. by eexists.
    + by rewrite lookup_insert_ne.
Qed.

(** X7: nothing is ever evicted from the cache: an identifier that has an
    entry at some point of an execution has one at every later point, also
    after it has been deselected. *)
Theorem cache_entry_never_evicted
    (es es' : list event) (w w' : World) (runId : string) :
  run_events es mounted = Some w →
  run_events es' w = Some w' →
  is_Some (runDataCache (app w) !! runId) →
  is_Some (runDataCache (app w') !! runId).
Proof.
  intros Hrun. apply reachable_cache_kept.
  apply (run_events_reachable es mounted); [constructor | done].
Qed.

Lemma cache_entry_never_evicted_witness :
  is_Some
    (runDataCache
       (app (world_after
               [RunsArrive (Json [run_summary "r1"]);
                RunArrive OnDemand "r1" (Json example_json);
                ClickCheckbox 0]))
     !! "r1").
Proof.
  apply (cache_entry_never_evicted
           [RunsArrive (Json [run_summary "r1"]);
            RunArrive OnDemand "r1" (Json example_json)]
           [ClickCheckbox 0]
           (world_after
              [RunsArrive (Json [run_summary "r1"]);
               RunArrive OnDemand "r1" (Json example_json)])).
  - vm_compute. reflexivity.
  - vm_compute. reflexivity.
  - vm_compute. by eexists.
Defined.

(** X8: when the data of a run arrives, the cache entry of that run
    becomes the parsed body, whatever was stored before (it is replaced,
    not merged); the entries of the other runs, the selection, the run
    list and the live data stay as they are, also when the run is no
    longer selected. *)
Theorem run_data_arrival_overwrites_entry
    (es : list event) (w w' : World) (o : origin) (runId : string)
    (json : ResultsJson) :
  run_events es mounted = Some w →
  step (RunArrive o runId (Json json)) w = Some w' →
  runDataCache (app w') !! runId = Some (parse_results json)
  ∧ (∀ other, other ≠ runId →
       runDataCache (app w') !! other = runDataCache (app w) !! other)
  ∧ activePlots (app w') = activePlots (app w)
  ∧ runs (app w') = runs (app w)
  ∧ liveData (app w') = liveData (app w).
Proof.
  intros Hrun Hstep.
  pose proof (run_events_outcome es w _ w' Hrun Hstep) as Hout.
  inversion Hout as [ | | |o' id r Hin| | | | | ]; subst. simpl.
  split; [apply lookup_insert_eq|]. split; [|done].
  intros other Hne. by rewrite lookup_insert_ne.
Qed.

Lemma run_data_arrival_overwrites_entry_witness :
  runDataCache
    (app (world_after
            [RunsArrive (Json [run_summary "r1"]);
             RunArrive OnDemand "r1" (Json example_json)]))
  !! "r1"
  = Some (parse_results example_json).
Proof.
  apply (run_data_arrival_overwrites_entry
           [RunsArrive (Json [run_summary "r1"])]
           (world_after [RunsArrive (Json [run_summary "r1"])])
           _ OnDemand "r1" example_json).
  - vm_compute. reflexivity.
  - vm_compute. reflexivity.
Defined.

(** X9: the body of [/results] is stored as live data and shown nowhere:
    its arrival, failed or not, changes neither the chart nor the rows of
    the table nor the selection nor the cache. *)
Theorem live_results_never_shown
    (es : list event) (w w' : World) (r : response ResultsJson) :
  run_events es mounted = Some w →
  step (ResultsArrive r) w = Some w' →
  plot_data (app w') = plot_data (app w)
  ∧ visible_rows (app w') = visible_rows (app w)
  ∧ show_link (app w') = show_link (app w)
  ∧ activePlots (app w') = activePlots (app w)
  ∧ runDataCache (app w') = runDataCache (app w)
  ∧ (∀ json, r = Json json → liveData (app w') = parse_results json).
Proof.
  intros Hrun Hstep.
  pose proof (run_events_outcome es w _ w' Hrun Hstep) as Hout.
  inversion Hout as [ | |r' Hin| | | | | | ]; subst.
  destruct r as [e|e|json]; simpl; repeat split; try done.
  by intros json' [= <-].
Qed.

Lemma live_results_never_shown_witness :
  plot_data
    (app (world_after
            [RunsArrive (Json [run_summary "r1"]);
             RunArrive OnDemand "r1" (Json example_json);
             ResultsArrive (Json example_json)]))
  = plot_data
      (app (world_after
              [RunsArrive (Json [run_summary "r1"]);
               RunArrive OnDemand "r1" (Json example_json)])).
Proof.
  apply (live_results_never_shown
           [RunsArrive (Json [run_summary "r1"]);
            RunArrive OnDemand "r1" (Json example_json)]
           _ _ (Json example_json)).
  - vm_compute. reflexivity.
  - vm_compute. reflexivity.
Defined.

(** ** The chart, continued *)

Lemma find_listed (a : App) (runId : string) :
  match List.find (λ r, String.eqb (run r) runId) (runs a) with
  | Some r => run r = runId
              ∧ existsb (λ r, String.eqb (run r) runId) (runs a) = true
  | None => existsb (λ r, String.eqb (run r) runId) (runs a) = false
  end.
Proof.
  induction (runs a) as [|r l IH]; simpl; [done|].
  destruct (String.eqb (run r) runId) eqn:Heq; simpl; [|done].
  by apply String.eqb_eq in Heq.
Qed.

Lemma plot_series_plottable (a : App) (idx : nat) (runId : string) :
  match plot_series a idx runId with
  | Some s =>
      plottable a runId = true
      ∧ name s = runId
      ∧ line_color s = color_at idx
      ∧ ∃ d, runDataCache a !! runId = Some d
             ∧ x s = steps d ∧ y s = returns d
  | None => plottable a runId = false
  end.
Proof.
  unfold plot_series, plottable, get.
  pose proof (find_listed a runId) as Hfind.
  destruct (find _ (runs a)) as [r|].
  - destruct Hfind as [Hrun ->]. simpl.
    destruct (runDataCache a !! runId) as [d|]; [|by case_bool_decide].
    case_bool_decide; [done|]. simpl. repeat split; try done.
    by exists d.
  - by rewrite Hfind.
Qed.

Lemma names_omap_imap (p : string → bool)
    (f : nat → string → option Series) (l : list string) :
  (∀ i id, match f i id with
           | Some s => p id = true ∧ name s = id
           | None => p id = false
           end) →
  name <$> omap id (imap f l) = filter (λ id, p id = true) l.
Proof.
  revert f. induction l as [|runId l IH]; intros f Hf; [done|].
  simpl. pose proof (Hf 0 runId) as H0.
  destruct (f 0 runId) as [s|].
  - destruct H0 as [Hp Hname]. rewrite filter_cons_True by done.
    simpl. rewrite Hname. f_equal. apply IH.
    intros i id'. apply (Hf (S i) id').
  - rewrite filter_cons_False by (by rewrite H0).
    apply IH. intros i id'. apply (Hf (S i) id').
Qed.

Lemma plot_data_names (a : App) :
  name <$> plot_data a
  = filter (λ runId, plottable a runId = true) (activePlots a).
Proof.
  unfold plot_data. apply names_omap_imap. intros i id'.
  pose proof (plot_series_plottable a i id') as H.
  destruct (plot_series a i id'); [|done]. by destruct H as (? & ? & _).
Qed.

(** X10: the series on the chart are, in the order of the selection, those
    of the selected identifiers that are listed in [runs] and have a
    cache entry with a non-empty [steps]; in particular a selected run
    that is no longer listed has no series, cached or not. *)
Theorem chart_names_are_plottable_selection (a : App) :
  name <$> plot_data a
  = filter (λ runId, plottable a runId = true) (activePlots a)
  ∧ (∀ runId, (∀ r, r ∈ runs a → run r ≠ runId) →
       ∀ s, s ∈ plot_data a → name s ≠ runId).
Proof.
  pose proof (plot_data_names a) as Hnames.
  split; [done|].
  intros runId Hunlisted s Hs Hname.
  assert (Hin : runId ∈ name <$> plot_data a)
    by (rewrite <- Hname; by apply list_elem_of_fmap_2).
  rewrite Hnames in Hin. apply list_elem_of_filter in Hin as [Hp _].
  unfold plottable in Hp. apply andb_true_iff in Hp as [Hex _].
  apply existsb_exists in Hex as (r & Hr & Heq).
  apply String.eqb_eq in Heq. apply (Hunlisted r); [|done].
  by apply list_elem_of_In.
Qed.

(** X11: a selected run that is listed and has a cached series with at
    least one step is on the chart, with the cached steps and returns and
    with the color of its position in the selection. *)
Theorem plottable_selected_run_is_on_chart
    (a : App) (idx : nat) (runId : string) (r : RunSummary) (d : RunData) :
  activePlots a !! idx = Some runId →
  r ∈ runs a → run r = runId →
  runDataCache a !! runId = Some d →
  steps d ≠ [] →
  ∃ s, s ∈ plot_data a
       ∧ name s = runId ∧ x s = steps d ∧ y s = returns d
       ∧ line_color s = color_at idx.
Proof.
  intros Hidx Hr Hrun Hd Hsteps.
  pose proof (plot_series_plottable a idx runId) as Hs.
  destruct (plot_series a idx runId) as [s|] eqn:Hplot.
  - destruct Hs as (_ & Hname & Hcolor & d' & Hd' & Hx & Hy).
    rewrite Hd in Hd'. injection Hd' as <-.
    exists s. split; [|done].
    unfold plot_data. apply list_elem_of_omap. exists (Some s).
    split; [|done]. rewrite <- Hplot.
    by apply elem_of_lookup_imap_2.
  - unfold plottable in Hs. rewrite Hd in Hs.
    apply andb_false_iff in Hs as [Hex | Hlen].
    + assert (Htrue : existsb (λ r, String.eqb (run r) runId) (runs a)
                      = true).
      { apply existsb_exists. exists r. split; [by apply list_elem_of_In|].
        by apply String.eqb_eq. }
      congruence.
    + apply negb_false_iff, bool_decide_eq_true in Hlen.
      by destruct (steps d).
Qed.

Lemma plottable_selected_run_is_on_chart_witness :
  ∃ s, s ∈ plot_data
             (app (world_after
                     [RunsArrive (Json [run_summary "r1"]);
                      RunArrive OnDemand "r1" (Json example_json)]))
       ∧ name s = "r1"
       ∧ x s = steps (parse_results example_json)
       ∧ y s = returns (parse_results example_json)
       ∧ line_color s = color_at 0.
Proof.
  apply (plottable_selected_run_is_on_chart _ 0 "r1" (run_summary "r1")
           (parse_results example_json)).
  - reflexivity.
  - vm_compute. apply list_elem_of_here.
  - reflexivity.
  - reflexivity.
  - discriminate.
Defined.

Lemma colors_omap_imap (f : nat → string → option Series)
    (l : list string) (k : nat) :
  (∀ i id s, f i id = Some s → line_color s = color_at (k + i)) →
  line_color <$> omap id (imap f l)
  `sublist_of` (color_at <$> seq k (length l)).
Proof.
  revert f k. induction l as [|runId l IH]; intros f k Hf; [done|].
  simpl.
  assert (Hrest : line_color <$> omap id (imap (f ∘ S) l)
                  `sublist_of` (color_at <$> seq (S k) (length l))).
  { apply IH. intros i id' s Hs. rewrite (Hf (S i) id' s Hs).
    f_equal. lia. }
  destruct (f 0 runId) as [s|] eqn:Hs.
  - simpl. rewrite (Hf 0 runId s Hs), Nat.add_0_r.
    by apply sublist_skip.
  - by apply sublist_cons.
Qed.

(** X12: colors go by position in the selection, six positions to a
    cycle: with at most six runs selected no two series on the chart have
    the same color, and the series of positions [idx] and [idx + 6] have
    the same one. *)
Theorem chart_colors_by_position (a : App) :
  (length (activePlots a) ≤ 6 → NoDup (line_color <$> plot_data a))
  ∧ (∀ idx runId runId' s s',
       plot_series a idx runId = Some s →
       plot_series a (idx + 6) runId' = Some s' →
       line_color s = line_color s').
Proof.
  split.
  - intros Hlen.
    assert (Hsub : line_color <$> plot_data a
                   `sublist_of` (color_at <$> seq 0 (length (activePlots a)))).
    { unfold plot_data. apply colors_omap_imap. intros i id' s Hs.
      pose proof (plot_series_plottable a i id') as H.
      rewrite Hs in H. by destruct H as (_ & _ & -> & _). }
    apply (sublist_NoDup _ _) with (2 := Hsub).
    destruct (length (activePlots a)) as [|[|[|[|[|[|[|n]]]]]]]; [..|lia];
      apply (bool_decide_unpack _); vm_compute; exact I.
  - intros idx runId runId' s s' Hs Hs'.
    pose proof (plot_series_plottable a idx runId) as H.
    pose proof (plot_series_plottable a (idx + 6) runId') as H'.
    rewrite Hs in H. rewrite Hs' in H'.
    destruct H as (_ & _ & -> & _). destruct H' as (_ & _ & -> & _).
    unfold color_at. change (length colors) with 6.
    by rewrite <- (Nat.Div0.mod_add idx 1 6).
Qed.

Lemma chart_colors_by_position_witness :
  NoDup (line_color
           <$> plot_data (chart_app ["r1"; "r2"; "r3"; "r4"; "r5"; "r6"]))
  ∧ length (plot_data (chart_app ["r1"; "r2"; "r3"; "r4"; "r5"; "r6"])) = 6
  ∧ ∃ s s',
      plot_series (chart_app ["r1"; "r2"; "r3"; "r4"; "r5"; "r6"; "r7"])
        0 "r1" = Some s
      ∧ plot_series (chart_app ["r1"; "r2"; "r3"; "r4"; "r5"; "r6"; "r7"])
          (0 + 6) "r7" = Some s'
      ∧ line_color s = "#8b76e9"
      ∧ line_color s = line_color s'.
Proof.
  split; [apply chart_colors_by_position; vm_compute; lia|].
  split; [reflexivity|].
  eexists. eexists. split; [vm_compute; reflexivity|].
  split; [vm_compute; reflexivity|]. split; [reflexivity|].
  eapply (proj2 (chart_colors_by_position
                   (chart_app ["r1"; "r2"; "r3"; "r4"; "r5"; "r6"; "r7"]))
            0 "r1" "r7");
    vm_compute; reflexivity.
Defined.

(** X13: selecting one more run leaves every series that is on the chart
    where it is, color included, and adds at most one series, after the
    others. *)
Theorem selecting_a_run_appends_to_chart (w : World) (r : RunSummary) :
  run r ∉ activePlots (app w) →
  plot_data (app (exec (checkbox_onChange r) w))
  = plot_data (app w)
    ++ option_list
         (plot_series (app w) (length (activePlots (app w))) (run r)).
Proof.
  intros Hnew.
  change (plot_data (app (exec (checkbox_onChange r) w)))
    with (omap id (imap (plot_series (app w))
                     (toggle (run r) (activePlots (app w))))).
  unfold toggle. rewrite bool_decide_eq_false_2 by done.
  rewrite imap_app, omap_app. f_equal. simpl.
  rewrite Nat.add_0_r. by destruct (plot_series _ _ _).
Qed.

Lemma selecting_a_run_appends_to_chart_witness :
  plot_data
    (app (exec (checkbox_onChange (run_summary "r1"))
            (world_after one_of_two_selected_trace)))
  = plot_data (app (world_after one_of_two_selected_trace))
    ++ option_list
         (plot_series (app (world_after one_of_two_selected_trace))
            (length (activePlots
                       (app (world_after one_of_two_selected_trace))))
            "r1")
  ∧ name <$> plot_data (app (world_after one_of_two_selected_trace))
    = ["r2"]
  ∧ name <$> plot_data
               (app (exec (checkbox_onChange (run_summary "r1"))
                       (world_after one_of_two_selected_trace)))
    = ["r2"; "r1"].
Proof.
  split; [|split; vm_compute; reflexivity].
  apply (selecting_a_run_appends_to_chart
           (world_after one_of_two_selected_trace) (run_summary "r1")).
  vm_compute. intros Hin. apply list_elem_of_singleton in Hin.
  discriminate Hin.
Defined.

(** X14: deselecting a run takes its series off the chart and keeps the
    other series, in their order (their colors are those of their new
    positions). *)
Theorem deselecting_a_run_removes_its_series (w : World) (r : RunSummary) :
  run r ∈ activePlots (app w) →
  name <$> plot_data (app (exec (checkbox_onChange r) w))
  = filter (λ id, id ≠ run r) (name <$> plot_data (app w)).
Proof.
  intros Hsel. rewrite !plot_data_names.
  change (activePlots (app (exec (checkbox_onChange r) w)))
    with (toggle (run r) (activePlots (app w))).
  change (plottable (app (exec (checkbox_onChange r) w)))
    with (plottable (app w)).
  unfold toggle. rewrite bool_decide_eq_true_2 by done.
  rewrite !list_filter_filter. apply list_filter_iff. tauto.
Qed.

Lemma deselecting_a_run_removes_its_series_witness :
  name <$> plot_data
             (app (exec (checkbox_onChange (run_summary "r1"))
                     (world_after
                        [RunsArrive (Json [run_summary "r1"]);
                         RunArrive OnDemand "r1" (Json example_json)])))
  = filter (λ id, id ≠ "r1")
      (name <$> plot_data
                  (app (world_after
                          [RunsArrive (Json [run_summary "r1"]);
                           RunArrive OnDemand "r1" (Json example_json)]))).
Proof.
  apply (deselecting_a_run_removes_its_series _ (run_summary "r1")).
  vm_compute. apply list_elem_of_here.
Defined.

(** ** The table's controls *)

(** X15: a click on the checkbox of a row flips that checkbox (and the one
    of any other row with the same identifier) and no other. *)
Theorem checkbox_click_flips_its_run
    (es : list event) (w : World) (row : nat) (r : RunSummary) :
  run_events es mounted = Some w →
  visible_rows (app w) !! row = Some r →
  ∃ w', step (ClickCheckbox row) w = Some w'
        ∧ checkbox_checked (app w') r = negb (checkbox_checked (app w) r)
        ∧ (∀ r', run r' ≠ run r →
             checkbox_checked (app w') r' = checkbox_checked (app w) r').
Proof.
  intros Hrun Hrow.
  destruct (step (ClickCheckbox row) w) as [w'|] eqn:Hstep;
    [|simpl in Hstep; by rewrite Hrow in Hstep].
  exists w'. split; [done|].
  pose proof (run_events_outcome es w _ w' Hrun Hstep) as Hout.
  inversion Hout as [ | | | | | | |row' r0 Hrow'| ]; subst.
  rewrite Hrow in Hrow'. injection Hrow' as <-.
  unfold checkbox_checked.
  change (activePlots (app (after_plots_commit (exec (checkbox_onChange r) w))))
    with (toggle (run r) (activePlots (app w))).
  split.
  - destruct (decide (run r ∈ activePlots (app w))) as [Hin|Hnot].
    + rewrite (bool_decide_eq_true_2 _ Hin). simpl.
      apply bool_decide_eq_false_2. rewrite elem_of_toggle. tauto.
    + rewrite (bool_decide_eq_false_2 _ Hnot). simpl.
      apply bool_decide_eq_true_2. rewrite elem_of_toggle. tauto.
  - intros r' Hne. apply bool_decide_ext. rewrite elem_of_toggle. tauto.
Qed.

Lemma checkbox_click_flips_its_run_witness :
  ∃ w', step (ClickCheckbox 0)
          (world_after [RunsArrive (Json [run_summary "r1"])]) = Some w'
        ∧ checkbox_checked (app w') (run_summary "r1")
          = negb (checkbox_checked
                    (app (world_after [RunsArrive (Json [run_summary "r1"])]))
                    (run_summary "r1")).
Proof.
  destruct (checkbox_click_flips_its_run
              [RunsArrive (Json [run_summary "r1"])]
              (world_after [RunsArrive (Json [run_summary "r1"])])
              0 (run_summary "r1"))
    as (w' & Hstep & Hflip & _);
    [vm_compute; reflexivity | reflexivity |].
  by exists w'.
Defined.

(** X16: the rows on the page are the first row or all rows of the run
    list, and the link under the table is there exactly when the list has
    more than one run; while the table is collapsed the number in the
    link is the number of rows that are not shown. *)
Theorem show_link_counts_hidden_rows (a : App) :
  (is_Some (show_link a) ↔ 1 < length (runs a))
  ∧ visible_rows a `prefix_of` runs a
  ∧ visible_rows a !! 0 = runs a !! 0
  ∧ (showAllRuns a = true → visible_rows a = runs a)
  ∧ (showAllRuns a = false →
     length (visible_rows a) = min 1 (length (runs a)))
  ∧ (showAllRuns a = false → 1 < length (runs a) →
     show_link a
     = Some ("Show Previous Runs ("
             +:+ toString
                   (IInt
                      (Z.of_nat (length (runs a) - length (visible_rows a))))
             +:+ ")")).
Proof.
  unfold show_link, visible_rows. split.
  - case_bool_decide; split;
      first [done | by intros [? ?] | by intros _ | lia].
  - split; [destruct (showAllRuns a); [done | apply prefix_take]|].
    split; [destruct (showAllRuns a); [done | by destruct (runs a)]|].
    split; [by intros ->|].
    split; [intros ->; apply length_take|].
    intros -> Hlen. rewrite bool_decide_eq_true_2 by done.
    rewrite length_take. do 5 f_equal. lia.
Qed.

(** X17: a tick of the polling interval always sends one request for
    [/results] and one for [/runs], whatever is still in flight, and
    changes nothing in the component's state. *)
Theorem live_tick_always_polls (es : list event) (w : World) :
  run_events es mounted = Some w →
  ∃ w', step LiveTick w = Some w'
        ∧ app w' = app w
        ∧ pending w' = pending w ++ [GetResults; GetRuns]
        ∧ issued w' = issued w ++ [GetResults; GetRuns].
Proof.
  intros Hrun.
  destruct (step LiveTick w) as [w'|] eqn:Hstep; [|done].
  exists w'. split; [done|].
  pose proof (run_events_outcome es w _ w' Hrun Hstep) as Hout.
  by inversion Hout.
Qed.

Lemma live_tick_always_polls_witness :
  ∃ w', step LiveTick mounted = Some w'
        ∧ app w' = app mounted
        ∧ pending w' = [GetResults; GetRuns; GetResults; GetRuns]
        ∧ issued w' = [GetResults; GetRuns; GetResults; GetRuns].
Proof. apply (live_tick_always_polls [] mounted). reflexivity. Defined.
